(** * Overseer: protocol probes (DNS, IMAPS) and the enqueue sub-command

    A shallow embedding of
    - [protocols/dns_probe.go]  ([DNSTest.lookup], [DNSTest.localQuery],
      [DNSTest.RunTest], [IMAPSTest.RunTest]),
    - the two revisions of the [enqueue] sub-command ([enqueueCmd.Execute]),
    together with the part of the Go runtime and libraries they call.

    Go strings are byte strings: they are modelled by [string], whose
    characters are the 256 byte values.  Code that can panic returns a
    [result]; code that touches package-level variables, the network or the
    queue threads an explicit state whose [log] records every external call
    in program order. *)

From Stdlib Require Import ZArith NArith Ascii String List Lia Bool.
From Stdlib Require Import DecimalString.
From stdpp Require Import base tactics option list strings gmap sorting.

Local Open Scope string_scope.
Local Open Scope list_scope.
Local Open Scope Z_scope.

(** ** Go runtime: errors, panics, state *)

(** Kinds of [*strconv.NumError]. *)
Inductive NumErr := ErrSyntax | ErrRange.

(** The [error] values the modelled code creates, receives and returns.
    [errorString] is what [errors.New] and [fmt.Errorf] build (the formatted
    text); [NumError] is [*strconv.NumError]; [externalError] stands for an
    error value produced by a library behind the network or the queue,
    identified by its text. *)
Inductive error :=
| errorString (s : string)
| NumError (Func Num : string) (Err : NumErr)
| externalError (text : string).

(** A Go computation either returns or panics. *)
Inductive result (A : Type) :=
| Done (a : A)
| Panic (msg : string).
Arguments Done {A} a.
Arguments Panic {A} msg.

(** Stateful, possibly panicking code over a state [S]. *)
Definition M (S A : Type) : Type := S -> result A * S.

Definition ret {S A} (a : A) : M S A := fun s => (Done a, s).

Definition bind {S A B} (m : M S A) (k : A -> M S B) : M S B :=
  fun s =>
    match m s with
    | (Done a, s') => k a s'
    | (Panic msg, s') => (Panic msg, s')
    end.

Definition panic {S A} (msg : string) : M S A := fun s => (Panic msg, s).

(** A computation that does not touch the state. *)
Definition pure_result {S A} (r : result A) : M S A := fun s => (r, s).

(** stdpp's monad notations: [x ← m; k], ['(a, b) ← m; k] and [m ;; k]. *)
#[global] Instance M_ret {S} : MRet (M S) := fun A => @ret S A.
#[global] Instance M_bind {S} : MBind (M S) := fun A B k m => bind m k.

(** The text of the runtime panic for [s[i]] with [i >= len(s)]. *)
Definition index_out_of_range (i len : Z) : string :=
  "runtime error: index out of range [" +:+
  NilZero.string_of_int (Z.to_int i) +:+ "] with length " +:+
  NilZero.string_of_int (Z.to_int len).

(** ** Package [fmt]: the verbs used by the code *)
Module Fmt.
(** [%d] of an integer. *)
Definition d (z : Z) : string := NilZero.string_of_int (Z.to_int z).
End Fmt.

(** ** Package [strings] *)
Module Strings.

(** [strings.HasPrefix]. *)
Fixpoint HasPrefix (s prefix : string) : bool :=
  match prefix, s with
  | EmptyString, _ => true
  | String _ _, EmptyString => false
  | String p prefix', String c s' =>
      if Ascii.eqb p c then HasPrefix s' prefix' else false
  end.

(** [strings.Contains(s, substr)]: [substr] occurs at some offset of [s]. *)
Fixpoint Contains (s substr : string) : bool :=
  HasPrefix s substr ||
  match s with
  | EmptyString => false
  | String _ s' => Contains s' substr
  end.

(** [strings.Join(elems, sep)]. *)
Fixpoint Join (elems : list string) (sep : string) : string :=
  match elems with
  | [] => ""
  | [e] => e
  | e :: rest => e +:+ sep +:+ Join rest sep
  end.

End Strings.

(** ** Package [sort] *)
Module Sort.
(** [sort.Strings] sorts in increasing order of Go's [<] on strings, the
    byte-wise lexicographic order, which is [String.le].  The order is total
    and antisymmetric, so the sorted arrangement of a list is unique
    ([Strings_unique] below) and any sorting algorithm computes it; a merge
    sort is used here. *)
Definition Strings (x : list string) : list string :=
  merge_sort String.le x.
End Sort.

(** ** Package [strconv] *)
Module Strconv.

Definition isDigit (c : ascii) : bool :=
  (48 <=? Z.of_N (N_of_ascii c)) && (Z.of_N (N_of_ascii c) <=? 57).

(** The digit loop of [ParseUint(s, 10, 64)], started with [n]: the first
    byte that is not a decimal digit is a syntax error, the first step
    that leaves [uint64] a range error, whichever comes first. *)
Fixpoint parseDigits (s : string) (n : Z) : Z + NumErr :=
  match s with
  | EmptyString => inl n
  | String c s' =>
      if isDigit c then
        let n1 := n * 10 + (Z.of_N (N_of_ascii c) - 48) in
        if 2 ^ 64 - 1 <? n1 then inr ErrRange else parseDigits s' n1
      else inr ErrSyntax
  end.

(** [strconv.Atoi] on a 64-bit platform: an optional sign, then at least
    one decimal digit; the value must fit [int].  (The library's fast path
    for short inputs agrees with [ParseInt(s, 10, 0)].) *)
Definition Atoi (s : string) : Z * option error :=
  match s with
  | EmptyString => (0, Some (NumError "Atoi" s ErrSyntax))
  | String c0 rest =>
      let neg := Ascii.eqb c0 "-" in
      let body := if Ascii.eqb c0 "+" || neg then rest else s in
      match body with
      | EmptyString => (0, Some (NumError "Atoi" s ErrSyntax))
      | _ =>
          match parseDigits body 0 with
          | inr ErrSyntax => (0, Some (NumError "Atoi" s ErrSyntax))
          | inr ErrRange =>
              (if neg then - 2 ^ 63 else 2 ^ 63 - 1,
               Some (NumError "Atoi" s ErrRange))
          | inl un =>
              if negb neg && (2 ^ 63 <=? un) then
                (2 ^ 63 - 1, Some (NumError "Atoi" s ErrRange))
              else if neg && (2 ^ 63 <? un) then
                (- 2 ^ 63, Some (NumError "Atoi" s ErrRange))
              else (if neg then - un else un, None)
          end
      end
  end.

End Strconv.

(** ** Package [unicode/utf8] *)
Module Utf8.

Definition RuneError : N := 0xFFFD%N.

(** The byte of [s] at offset [i] ([0] past the end; callers check the
    length first, as the library does). *)
Definition byteAt (s : string) (i : nat) : N :=
  match String.get i s with
  | Some c => N_of_ascii c
  | None => 0%N
  end.

(** The library's table [first] joined with [acceptRanges]: for a leading
    byte of a multi-byte sequence, the length of the sequence and the range
    the second byte must lie in; [None] for a byte that cannot start one. *)
Definition first (s0 : N) : option (nat * N * N) :=
  (if (0xC2 <=? s0) && (s0 <=? 0xDF) then Some (2%nat, 0x80, 0xBF)
   else if s0 =? 0xE0 then Some (3%nat, 0xA0, 0xBF)
   else if (0xE1 <=? s0) && (s0 <=? 0xEC) then Some (3%nat, 0x80, 0xBF)
   else if s0 =? 0xED then Some (3%nat, 0x80, 0x9F)
   else if (0xEE <=? s0) && (s0 <=? 0xEF) then Some (3%nat, 0x80, 0xBF)
   else if s0 =? 0xF0 then Some (4%nat, 0x90, 0xBF)
   else if (0xF1 <=? s0) && (s0 <=? 0xF3) then Some (4%nat, 0x80, 0xBF)
   else if s0 =? 0xF4 then Some (4%nat, 0x80, 0x8F)
   else None)%N.

(** Continuation bytes lie in [locb, hicb]. *)
Definition cont (b : N) : bool := ((0x80 <=? b) && (b <=? 0xBF))%N.

(** [utf8.DecodeRuneInString]: the first rune of [s] and its width in
    bytes; an invalid or truncated sequence is [(RuneError, 1)]. *)
Definition DecodeRuneInString (s : string) : N * nat :=
  match s with
  | EmptyString => (RuneError, 0%nat)
  | String c0 _ =>
      let s0 := N_of_ascii c0 in
      if (s0 <? 0x80)%N then (s0, 1%nat)
      else
        match first s0 with
        | None => (RuneError, 1%nat)
        | Some (sz, lo, hi) =>
            let s1 := byteAt s 1 in
            let s2 := byteAt s 2 in
            let s3 := byteAt s 3 in
            if (String.length s <? sz)%nat then (RuneError, 1%nat)
            else if ((s1 <? lo) || (hi <? s1))%N then (RuneError, 1%nat)
            else if (sz <=? 2)%nat then
              (N.lor (N.shiftl (N.land s0 0x1F) 6) (N.land s1 0x3F), 2%nat)
            else if negb (cont s2) then (RuneError, 1%nat)
            else if (sz <=? 3)%nat then
              (N.lor (N.lor (N.shiftl (N.land s0 0x0F) 12)
                            (N.shiftl (N.land s1 0x3F) 6))
                     (N.land s2 0x3F), 3%nat)
            else if negb (cont s3) then (RuneError, 1%nat)
            else
              (N.lor (N.lor (N.lor (N.shiftl (N.land s0 0x07) 18)
                                   (N.shiftl (N.land s1 0x3F) 12))
                            (N.shiftl (N.land s2 0x3F) 6))
                     (N.land s3 0x3F), 4%nat)
        end
  end.

(** [s[:n]] and [s[n:]] for [n <= len(s)]. *)
Fixpoint take (n : nat) (s : string) : string :=
  match n, s with
  | S n', String c s' => String c (take n' s')
  | _, _ => EmptyString
  end.

Fixpoint drop (n : nat) (s : string) : string :=
  match n, s with
  | S n', String _ s' => drop n' s'
  | _, _ => s
  end.

(** What [for _, r := range s] iterates over: the runes of [s] in order,
    each with the bytes it was decoded from.  Every step consumes at least
    one byte, so [length s] steps always reach the end. *)
Fixpoint runes_go (fuel : nat) (s : string) : list (N * string) :=
  match fuel, s with
  | O, _ => []
  | _, EmptyString => []
  | S fuel', _ =>
      let '(r, w) := DecodeRuneInString s in
      (r, take w s) :: runes_go fuel' (drop w s)
  end.

Definition runes (s : string) : list (N * string) :=
  runes_go (String.length s) s.

End Utf8.

(** ** Package [unicode] *)
Module Unicode.

(** [unicode.IsSpace]: in Latin-1 the six ASCII space characters, U+0085
    and U+00A0; above it the [White_Space] property. *)
Definition IsSpace (r : N) : bool :=
  (if r <=? 0xFF then
     (r =? 0x09) || (r =? 0x0A) || (r =? 0x0B) || (r =? 0x0C) ||
     (r =? 0x0D) || (r =? 0x20) || (r =? 0x85) || (r =? 0xA0)
   else
     (r =? 0x1680) || ((0x2000 <=? r) && (r <=? 0x200A)) ||
     (r =? 0x2028) || (r =? 0x2029) || (r =? 0x202F) ||
     (r =? 0x205F) || (r =? 0x3000))%N.

End Unicode.

(** ** [strings.Fields] *)
Module Fields.

(** The loop of [strings.FieldsFunc]: [cur] is the field being read, if
    any; a space rune closes it, any other rune extends it (or opens one). *)
Fixpoint split (f : N -> bool) (rs : list (N * string))
    (cur : option string) : list string :=
  match rs with
  | [] => match cur with Some w => [w] | None => [] end
  | (r, bytes) :: rs' =>
      if f r then
        match cur with
        | Some w => w :: split f rs' None
        | None => split f rs' None
        end
      else
        split f rs' (Some (default "" cur +:+ bytes))
  end.

End Fields.

(** [strings.Fields(s)]: the maximal runs of non-space runes of [s], in
    order; empty when [s] holds only white space. *)
Definition strings_Fields (s : string) : list string :=
  Fields.split Unicode.IsSpace (Utf8.runes s) None.

(** ** Package [test]: the parsed test handed to a probe *)
Module test.

(** The fields of [test.Test] and [test.Options] the probes read. *)
Record Test := { Input : string; Arguments : gmap string string }.
Record Options := { Timeout : Z }.

(** [tst.Arguments[k]]: a missing key reads as the zero value [""]. *)
Definition arg (tst : Test) (k : string) : string :=
  default "" (Arguments tst !! k).

End test.

(** * The DNS probe *)
Module DNS.
Import test.

(** Constants of [github.com/miekg/dns]. *)
Definition TypeA : Z := 1.
Definition TypeNS : Z := 2.
Definition TypeMX : Z := 15.
Definition TypeTXT : Z := 16.
Definition TypeAAAA : Z := 28.
Definition ClassINET : Z := 1.
Definition RcodeSuccess : Z := 0.
Definition RcodeNameError : Z := 3.

(** [net.IP] is a byte slice. *)
Definition IP := string.

Record Question := { Name : string; Qtype : Z; Qclass : Z }.

(** The resource records [lookup] tells apart, and all the others. *)
Inductive RR :=
| A (ip : IP)
| AAAA (ip : IP)
| MX (Preference : Z) (Mx : string)
| NS (Ns : string)
| TXT (Txt : list string)
| OtherRR (Rrtype : Z).

(** The fields of [dns.Msg] and [dns.Client] the probe sets or reads
    ([Question_] is the field [Question], a name the record type above
    already has here). *)
Record Msg := {
  Id : Z;
  RecursionDesired : bool;
  Rcode : Z;
  Question_ : list Question;
  Answer : list RR
}.

Record Client := { ReadTimeout : Z }.

(** A call of [Client.Exchange]: the client, the message sent, the address. *)
Inductive Event :=
| EvExchange (c : Client) (m : Msg) (address : string).

(** The package-level variables [localm] and [localc] (a [nil] pointer is
    [None]) and the network calls made so far. *)
Record State := {
  localm : option Msg;
  localc : option Client;
  log : list Event
}.

(** [localm = &m] and [localc = &c]: the package-level pointer now refers
    to a freshly allocated object. *)
Definition set_localm (m : Msg) : M State unit :=
  fun st =>
    (Done tt, {| localm := Some m; localc := localc st; log := log st |}).

Definition set_localc (c : Client) : M State unit :=
  fun st =>
    (Done tt, {| localm := localm st; localc := Some c; log := log st |}).

Definition nil_dereference : string :=
  "runtime error: invalid memory address or nil pointer dereference".

(** The map literal of [localQuery]. *)
Definition StringToType : gmap string Z :=
  list_to_map [("A", TypeA); ("AAAA", TypeAAAA); ("MX", TypeMX);
               ("NS", TypeNS); ("TXT", TypeTXT)].

Section Probe.

(** Library functions the probe calls: [dns.Fqdn], [net.IP.String],
    [dns.Id] (a random message id) and the network behind
    [Client.Exchange], which may answer differently as calls go by. *)
Variable Fqdn : string -> string.
Variable IPString : IP -> string.
Variable NewId : list Event -> Z.
Variable Exchange :
  list Event -> Client -> Msg -> string -> option Msg * option error.

(** [m.SetQuestion(z, t)]. *)
Definition SetQuestion (id : Z) (m : Msg) (z : string) (t : Z) : Msg :=
  {| Id := id; RecursionDesired := true; Rcode := Rcode m;
     Question_ := [ {| Name := z; Qtype := t; Qclass := ClassINET |} ];
     Answer := Answer m |}.

(** [localm.SetQuestion(qname, qtype)] on the package-level message. *)
Definition localm_SetQuestion (qname : string) (qtype : Z) : M State unit :=
  fun st =>
    match localm st with
    | None => (Panic nil_dereference, st)
    | Some m =>
        (Done tt,
         {| localm := Some (SetQuestion (NewId (log st)) m qname qtype);
            localc := localc st; log := log st |})
    end.

(** [localc.Exchange(localm, address)]. *)
Definition localc_Exchange (address : string)
    : M State (option Msg * option error) :=
  fun st =>
    match localc st, localm st with
    | Some c, Some m =>
        (Done (Exchange (log st) c m address),
         {| localm := localm st; localc := localc st;
            log := log st ++ [EvExchange c m address] |})
    | _, _ => (Panic nil_dereference, st)
    end.

(** [DNSTest.localQuery]. *)
Definition localQuery (server qname lookupType : string)
    : M State (option Msg * option error) :=
  let qtype := default 0 (StringToType !! lookupType) in
  if qtype =? 0 then
    mret (None, Some (errorString
      ("unsupported record to lookup '" +:+ lookupType +:+ "'")))
  else
    localm_SetQuestion qname qtype;;
    let address := server +:+ ":" +:+ Fmt.d 53 in
    let address :=
      if Strings.Contains server ":"
      then "[" +:+ server +:+ "]:" +:+ Fmt.d 53
      else address in
    '(r, err) ← localc_Exchange address;
    match err with
    | Some _ => mret (None, err)
    | None =>
        match r with
        | None => mret (r, err)
        | Some m =>
            if (Rcode m =? RcodeNameError) || (Rcode m =? RcodeSuccess)
            then mret (r, err)
            else mret (None, None)
        end
    end.

(** The loop of [lookup] over [r.Answer], started with [results]. *)
Fixpoint answers (entries : list RR) (results : list string)
    : result (list string) :=
  match entries with
  | [] => Done results
  | entry :: rest =>
      match entry with
      | A a => answers rest (results ++ [IPString a])
      | AAAA aaaa => answers rest (results ++ [IPString aaaa])
      | MX mxPrio mxName =>
          answers rest (results ++ [Fmt.d mxPrio +:+ " " +:+ mxName])
      | NS nameserver => answers rest (results ++ [nameserver])
      | TXT txt =>
          match txt with
          | [] => Panic (index_out_of_range 0 0)
          | txt0 :: _ => answers rest (results ++ [txt0])
          end
      | OtherRR _ => answers rest results
      end
  end.

(** [DNSTest.lookup]. *)
Definition lookup (server name ltype : string) (timeout : Z)
    : M State (list string * option error) :=
  set_localm {| Id := 0; RecursionDesired := true; Rcode := 0;
                Question_ := [ {| Name := ""; Qtype := 0; Qclass := 0 |} ];
                Answer := [] |};;
  set_localc {| ReadTimeout := timeout |};;
  '(r, err) ← localQuery server (Fqdn name) ltype;
  match err, r with
  | Some _, _ | None, None => mret ([], err)
  | None, Some m =>
      if Rcode m =? RcodeNameError then
        mret ([], Some (errorString ("no such domain " +:+ Fqdn name)))
      else
        results ← pure_result (answers (Answer m) []);
        mret (results, None)
  end.

(** [DNSTest.RunTest]. *)
Definition RunTest (tst : Test) (target : string) (opts : Options)
    : M State (option error) :=
  if decide (arg tst "lookup" = "") then
    mret (Some (errorString "no value to lookup specified"))
  else if decide (arg tst "type" = "") then
    mret (Some (errorString "no record-type to lookup"))
  else
    '(res, err) ← lookup target (arg tst "lookup") (arg tst "type")
                         (Timeout opts);
    match err with
    | Some _ => mret err
    | None =>
        let res := Sort.Strings res in
        let found := Strings.Join res "," in
        if decide (found = arg tst "result") then mret None
        else mret (Some (errorString
          ("expected DNS result to be '" +:+ arg tst "result" +:+
           "', but found '" +:+ found +:+ "'")))
    end.

End Probe.
End DNS.

(** * The IMAPS probe *)
Module IMAPS.
Import test.

(** [net.Dialer] and [tls.Config], with the fields the probe sets. *)
Record Dialer := { Dialer_Timeout : Z }.
Record TLSConfig := { ServerName : string; InsecureSkipVerify : bool }.

(** The calls the probe makes on the IMAP client library, in order. *)
Inductive Event :=
| EvDial (dial : Dialer) (address : string) (tlsSetup : TLSConfig)
| EvLogin (username password : string)
| EvLogout
| EvClose.

Section Probe.

(** The server behind [client.DialWithDialerTLS], [Client.Login] and
    [Client.Logout]: [None] is success, and the answer may depend on the
    calls made so far. *)
Variable DialWithDialerTLS :
  list Event -> Dialer -> string -> TLSConfig -> option error.
Variable Login : list Event -> string -> string -> option error.
Variable Logout : list Event -> option error.

Definition dial_tls (dial : Dialer) (address : string)
    (tlsSetup : TLSConfig) : M (list Event) (option error) :=
  fun log =>
    (Done (DialWithDialerTLS log dial address tlsSetup),
     log ++ [EvDial dial address tlsSetup]).

Definition con_Login (username password : string)
    : M (list Event) (option error) :=
  fun log => (Done (Login log username password),
              log ++ [EvLogin username password]).

Definition con_Logout : M (list Event) (option error) :=
  fun log => (Done (Logout log), log ++ [EvLogout]).

(** The call [con.Close()], recorded as such. *)
Definition con_Close : M (list Event) unit :=
  fun log => (Done tt, log ++ [EvClose]).

(** [defer d; body]: [d] runs when [body] returns or panics. *)
Definition defer {A} (d : M (list Event) unit)
    (body : M (list Event) A) : M (list Event) A :=
  fun log =>
    let '(r, log') := body log in
    (r, snd (d log')).

(** [data[0]]. *)
Definition index0 (data : list string) : M (list Event) string :=
  match data with
  | [] => panic (index_out_of_range 0 0)
  | d0 :: _ => mret d0
  end.

(** [IMAPSTest.RunTest]. *)
Definition RunTest (tst : Test) (target : string) (opts : Options)
    : M (list Event) (option error) :=
  let port := 993 in
  let '(port, err) :=
    if decide (arg tst "port" = "") then (port, None)
    else Strconv.Atoi (arg tst "port") in
  match err with
  | Some _ => mret err
  | None =>
      let insecure := bool_decide (arg tst "tls" = "insecure") in
      let address := target +:+ ":" +:+ Fmt.d port in
      let address :=
        if Strings.Contains target ":"
        then "[" +:+ target +:+ "]:" +:+ Fmt.d port
        else address in
      let dial := {| Dialer_Timeout := Timeout opts |} in
      let data := strings_Fields (Input tst) in
      data0 ← index0 data;
      let tlsSetup :=
        {| ServerName := data0; InsecureSkipVerify := false |} in
      let tlsSetup :=
        if insecure
        then {| ServerName := ""; InsecureSkipVerify := true |}
        else tlsSetup in
      err ← dial_tls dial address tlsSetup;
      match err with
      | Some _ => mret err
      | None =>
          defer con_Close
            (if negb (bool_decide (arg tst "username" = "")) &&
                negb (bool_decide (arg tst "password" = ""))
             then
               err ← con_Login (arg tst "username") (arg tst "password");
               match err with
               | Some _ => mret err
               | None =>
                   err ← con_Logout;
                   match err with
                   | Some _ => mret err
                   | None => mret None
                   end
               end
             else mret None)
      end
  end.

End Probe.
End IMAPS.

(** * The enqueue sub-command *)
Module Enqueue.
Import test.

(** [subcommands.ExitStatus]. *)
Inductive ExitStatus := ExitSuccess | ExitFailure | ExitUsageError.

(** [redis.Options], with the fields either revision sets. *)
Record RedisOptions := {
  Network : string;
  Addr : string;
  Password : string;
  DB : Z;
  DialTimeout : Z
}.

(** What the command does to the outside world, in order: creating the
    queue client, the liveness check, handing a file to the parser, one
    list-append on the queue, one line on standard output (the format and
    the error printed with [%s]). *)
Inductive Event :=
| EvNewClient (o : RedisOptions)
| EvPing
| EvParseFile (file : string)
| EvRPush (key value : string)
| EvPrintf (format : string) (e : error).

(** What the parser finds in one declarative line: a test, or a line it
    rejects. *)
Inductive Line :=
| Job (tst : Test)
| Malformed (e : error).

Definition newline : string := String (ascii_of_nat 10) "".

Section Cmd.

(** The queue service and the files: [None] is success. *)
Variable Ping : list Event -> option error.
Variable RPush : list Event -> string -> string -> option error.
Variable ReadFile : list Event -> string -> list Line + error.

Definition redis_NewClient (o : RedisOptions) : M (list Event) unit :=
  fun log => (Done tt, log ++ [EvNewClient o]).

Definition r_Ping : M (list Event) (option error) :=
  fun log => (Done (Ping log), log ++ [EvPing]).

Definition r_RPush (key value : string) : M (list Event) (option error) :=
  fun log => (Done (RPush log key value), log ++ [EvRPush key value]).

Definition Printf (format : string) (e : error) : M (list Event) unit :=
  fun log => (Done tt, log ++ [EvPrintf format e]).

Definition read_file (file : string) : M (list Event) (list Line + error) :=
  fun log => (Done (ReadFile log file), log ++ [EvParseFile file]).

(** [enqueueCmd.enqueueTest], the same in both revisions. *)
Definition enqueueTest (tst : Test) : M (list Event) (option error) :=
  r_RPush "overseer.jobs" (Input tst).

(** The parser calls [cb] on each test in file order and stops at the
    first line it rejects or the first error [cb] returns. *)
Fixpoint parse_lines (lines : list Line)
    (cb : Test -> M (list Event) (option error))
    : M (list Event) (option error) :=
  match lines with
  | [] => mret None
  | Malformed e :: _ => mret (Some e)
  | Job tst :: rest =>
      err ← cb tst;
      match err with
      | Some _ => mret err
      | None => parse_lines rest cb
      end
  end.

(** Modelled from the spec: [parser.ParseFile], which lives in the
    [parser] package.  It reads [file] (["-"] is standard input), fails if
    the file cannot be read, and otherwise hands each parsed test to the
    callback, one synchronous call per test; a callback error aborts the
    file. *)
Definition ParseFile (file : string)
    (cb : Test -> M (list Event) (option error))
    : M (list Event) (option error) :=
  lines ← read_file file;
  match lines with
  | inr e => mret (Some e)
  | inl ls => parse_lines ls cb
  end.

End Cmd.

(** ** The earlier revision: flags [redis-host] and [redis-pass] *)
Module V1.

Record enqueueCmd := { RedisHost : string; RedisPassword : string }.

Section Cmd.
Variable Ping : list Event -> option error.
Variable RPush : list Event -> string -> string -> option error.
Variable ReadFile : list Event -> string -> list Line + error.

(** The [for _, file := range f.Args()] loop of [Execute]. *)
Fixpoint files (args : list string) : M (list Event) unit :=
  match args with
  | [] => mret tt
  | file :: rest =>
      err ← ParseFile ReadFile file (enqueueTest RPush);
      match err with
      | Some e => Printf ("Error parsing file: %s" +:+ newline) e
      | None => mret tt
      end;;
      files rest
  end.

(** [enqueueCmd.Execute]; [args] is [f.Args()]. *)
Definition Execute (p : enqueueCmd) (args : list string)
    : M (list Event) ExitStatus :=
  redis_NewClient {| Network := ""; Addr := RedisHost p;
                     Password := RedisPassword p; DB := 0;
                     DialTimeout := 0 |};;
  err ← r_Ping Ping;
  match err with
  | Some e =>
      Printf ("Redis connection failed: %s" +:+ newline) e;;
      mret ExitFailure
  | None =>
      files args;;
      mret ExitSuccess
  end.

End Cmd.
End V1.

(** ** The later revision: also [redis-db], [redis-socket] and
    [redis-timeout] *)
Module V2.

Record enqueueCmd := {
  RedisDB : Z;
  RedisHost : string;
  RedisPassword : string;
  RedisSocket : string;
  RedisDialTimeout : Z
}.

Section Cmd.
Variable Ping : list Event -> option error.
Variable RPush : list Event -> string -> string -> option error.
Variable ReadFile : list Event -> string -> list Line + error.

(** The [for _, file := range f.Args()] loop of [Execute]: [Some s]
    when the body returned [s] from [Execute], [None] when the loop
    ran out of files or left through [break]. *)
Fixpoint files (args : list string) : M (list Event) (option ExitStatus) :=
  match args with
  | [] => mret None
  | file :: rest =>
      errParse ← ParseFile ReadFile file (enqueueTest RPush);
      match errParse with
      | Some e =>
          Printf ("Error parsing file: %s" +:+ newline) e;;
          mret (Some ExitFailure)
      | None =>
          if decide (file = "-") then mret None
          else files rest
      end
  end.

(** [enqueueCmd.Execute]; [args] is [f.Args()]. *)
Definition Execute (p : enqueueCmd) (args : list string)
    : M (list Event) ExitStatus :=
  (if decide (RedisSocket p = "") then
     redis_NewClient {| Network := ""; Addr := RedisHost p;
                        Password := RedisPassword p; DB := RedisDB p;
                        DialTimeout := RedisDialTimeout p |}
   else
     redis_NewClient {| Network := "unix"; Addr := RedisSocket p;
                        Password := RedisPassword p; DB := RedisDB p;
                        DialTimeout := RedisDialTimeout p |});;
  err ← r_Ping Ping;
  match err with
  | Some e =>
      Printf ("Redis connection failed: %s" +:+ newline) e;;
      mret ExitFailure
  | None =>
      returned ← files args;
      match returned with
      | Some status => mret status
      | None => mret ExitSuccess
      end
  end.

End Cmd.
End V2.
End Enqueue.

(** * The argument schemas of the probes *)

(** ** [DNSTest.Arguments] *)
Module DNSTest.

(** The arguments the DNS probe understands, each with the regular
    expression its value must match. *)
Definition Arguments : gmap string string :=
  list_to_map [("type", "A|AAAA|MX|NS|TXT"); ("lookup", ".*");
               ("result", ".*")].

Definition ShouldResolveHostname : bool := true.

End DNSTest.

(** ** [IMAPSTest.Arguments] *)
Module IMAPSTest.

Definition Arguments : gmap string string :=
  list_to_map [("port", "^[0-9]+$"); ("tls", "insecure");
               ("username", ".*"); ("password", ".*")].

Definition ShouldResolveHostname : bool := true.

End IMAPSTest.

(** * The flags of the enqueue sub-command *)
Module Flags.

(** The values a flag of this command can hold: [int], [string] and
    [time.Duration] (in nanoseconds). *)
Inductive Value :=
| IntValue (z : Z)
| StringValue (s : string)
| DurationValue (d : Z).

(** [flag.Flag]: the name, the usage text, the default value. *)
Record Flag := { Name : string; Usage : string; DefValue : Value }.

(** What [SetFlags] does to the outside world: reading the configuration
    file, printing a warning. *)
Inductive Event :=
| EvReadFile (path : string)
| EvPrintf (format : string) (e : error).

(** The command [p] the flags are bound to, the flag set [f] (its name
    and its map [formal] of defined flags), and the log. *)
Record State (C : Type) := {
  cmd : C;
  fs_name : string;
  formal : gmap string Flag;
  log : list Event
}.
Arguments cmd {C} _.
Arguments fs_name {C} _.
Arguments formal {C} _.
Arguments log {C} _.

Definition second : Z := 1000000000.

Section FlagSet.
Context {C : Type}.

(** The process environment and the file system. *)
Variable Getenv : string -> string.
Variable ReadFile : string -> string * option error.

(** [f.IntVar(&p.x, name, value, usage)] and its siblings: the bound
    field takes the default value, then the flag is entered in [formal];
    defining a name twice panics. *)
Definition Var (set : C -> C) (name : string) (value : Value)
    (usage : string) : M (State C) unit :=
  fun st =>
    let st1 := {| cmd := set (cmd st); fs_name := fs_name st;
                  formal := formal st; log := log st |} in
    match formal st !! name with
    | Some _ =>
        (Panic (if decide (fs_name st = "")
                then "flag redefined: " +:+ name
                else fs_name st +:+ " flag redefined: " +:+ name), st1)
    | None =>
        (Done tt,
         {| cmd := cmd st1; fs_name := fs_name st1;
            formal := <[name := {| Name := name; Usage := usage;
                                   DefValue := value |}]> (formal st1);
            log := log st1 |})
    end.

Definition ioutil_ReadFile (path : string)
    : M (State C) (string * option error) :=
  fun st =>
    (Done (ReadFile path),
     {| cmd := cmd st; fs_name := fs_name st; formal := formal st;
        log := log st ++ [EvReadFile path] |}).

Definition Printf (format : string) (e : error) : M (State C) unit :=
  fun st =>
    (Done tt,
     {| cmd := cmd st; fs_name := fs_name st; formal := formal st;
        log := log st ++ [EvPrintf format e] |}).

(** The part of [SetFlags] both revisions share: the defaults, possibly
    overwritten from the file named by [$OVERSEER]; [Unmarshal] is
    [json.Unmarshal(cfg, &defaults)], which gives the defaults as it left
    them and its error. *)
Definition load_defaults (Unmarshal : string -> C -> C * option error)
    (defaults : C) : M (State C) C :=
  if (0 <? Z.of_nat (String.length (Getenv "OVERSEER"))) then
    '(cfg, err) ← ioutil_ReadFile (Getenv "OVERSEER");
    match err with
    | None =>
        let '(defaults, err) := Unmarshal cfg defaults in
        match err with
        | Some e =>
            Printf ("WARNING: Error loading overseer.json - %s" +:+
                    Enqueue.newline) e;;
            mret defaults
        | None => mret defaults
        end
    | Some e =>
        Printf ("WARNING: Failed to read configuration-file - %s" +:+
                Enqueue.newline) e;;
        mret defaults
    end
  else mret defaults.

End FlagSet.

(** ** The earlier revision *)
Module V1.
Import Enqueue.V1.

Section Cmd.
Variable Getenv : string -> string.
Variable ReadFile : string -> string * option error.
Variable Unmarshal : string -> enqueueCmd -> enqueueCmd * option error.

(** [enqueueCmd.SetFlags]. *)
Definition SetFlags : M (State enqueueCmd) unit :=
  let defaults :=
    {| RedisHost := "localhost:6379"; RedisPassword := "" |} in
  defaults ← load_defaults Getenv ReadFile Unmarshal defaults;
  Var (fun p => {| RedisHost := RedisHost defaults;
                   RedisPassword := RedisPassword p |})
      "redis-host" (StringValue (RedisHost defaults))
      "Specify the address of the redis queue.";;
  Var (fun p => {| RedisHost := RedisHost p;
                   RedisPassword := RedisPassword defaults |})
      "redis-pass" (StringValue (RedisPassword defaults))
      "Specify the password for the redis queue.".

End Cmd.
End V1.

(** ** The later revision *)
Module V2.
Import Enqueue.V2.

Section Cmd.
Variable Getenv : string -> string.
Variable ReadFile : string -> string * option error.
Variable Unmarshal : string -> enqueueCmd -> enqueueCmd * option error.

(** [enqueueCmd.SetFlags]. *)
Definition SetFlags : M (State enqueueCmd) unit :=
  let defaults :=
    {| RedisDB := 0; RedisHost := "localhost:6379"; RedisPassword := "";
       RedisSocket := ""; RedisDialTimeout := 5 * second |} in
  defaults ← load_defaults Getenv ReadFile Unmarshal defaults;
  Var (fun p => {| RedisDB := RedisDB defaults; RedisHost := RedisHost p;
                   RedisPassword := RedisPassword p;
                   RedisSocket := RedisSocket p;
                   RedisDialTimeout := RedisDialTimeout p |})
      "redis-db" (IntValue (RedisDB defaults))
      "Specify the database-number for redis.";;
  Var (fun p => {| RedisDB := RedisDB p; RedisHost := RedisHost defaults;
                   RedisPassword := RedisPassword p;
                   RedisSocket := RedisSocket p;
                   RedisDialTimeout := RedisDialTimeout p |})
      "redis-host" (StringValue (RedisHost defaults))
      "Specify the address of the redis queue.";;
  Var (fun p => {| RedisDB := RedisDB p; RedisHost := RedisHost p;
                   RedisPassword := RedisPassword defaults;
                   RedisSocket := RedisSocket p;
                   RedisDialTimeout := RedisDialTimeout p |})
      "redis-pass" (StringValue (RedisPassword defaults))
      "Specify the password for the redis queue.";;
  Var (fun p => {| RedisDB := RedisDB p; RedisHost := RedisHost p;
                   RedisPassword := RedisPassword p;
                   RedisSocket := RedisSocket defaults;
                   RedisDialTimeout := RedisDialTimeout p |})
      "redis-socket" (StringValue (RedisSocket defaults))
      "If set, will be used for the redis connections.";;
  Var (fun p => {| RedisDB := RedisDB p; RedisHost := RedisHost p;
                   RedisPassword := RedisPassword p;
                   RedisSocket := RedisSocket p;
                   RedisDialTimeout := RedisDialTimeout defaults |})
      "redis-timeout" (DurationValue (RedisDialTimeout defaults))
      "Redis connection timeout.".

End Cmd.
End V2.
End Flags.

(** * Vocabulary of the specification *)

(** The connection address both probes are said to build: the host in
    brackets when it holds a colon, bare otherwise, then a colon and the
    port in decimal. *)
Definition hostport (host : string) (port : Z) : string :=
  if Strings.Contains host ":"
  then "[" +:+ host +:+ "]:" +:+ Fmt.d port
  else host +:+ ":" +:+ Fmt.d port.

(** A string with no non-white-space character. *)
Definition blank (s : string) : Prop :=
  Forall (fun rb => Unicode.IsSpace (fst rb) = true) (Utf8.runes s).

(** A byte that is an ASCII character other than white space. *)
Definition plain (c : ascii) : Prop :=
  (N_of_ascii c <? 0x80)%N = true /\ Unicode.IsSpace (N_of_ascii c) = false.

Module DNSSpec.
Import test DNS.

(** The record types of the probe's documentation. *)
Definition supported : list string := ["A"; "AAAA"; "MX"; "NS"; "TXT"].

(** The message and the client [lookup] allocates, and the query that goes
    out once [localQuery] has set the question. *)
Definition fresh_msg : Msg :=
  {| Id := 0; RecursionDesired := true; Rcode := 0;
     Question_ := [ {| Name := ""; Qtype := 0; Qclass := 0 |} ];
     Answer := [] |}.

Definition fresh_client (timeout : Z) : Client :=
  {| ReadTimeout := timeout |}.

Definition query (id : Z) (qname lookupType : string) : Msg :=
  SetQuestion id fresh_msg qname (default 0 (StringToType !! lookupType)).

(** The state once [lookup] has allocated its objects. *)
Definition allocated (timeout : Z) (st : State) : State :=
  {| localm := Some fresh_msg; localc := Some (fresh_client timeout);
     log := log st |}.

(** The state with other contents in the two package-level variables. *)
Definition with_globals (m : option Msg) (c : option Client) (st : State)
    : State :=
  {| localm := m; localc := c; log := log st |}.

(** The argument error [RunTest] reports for a test it rejects. *)
Definition argument_error (tst : Test) : error :=
  if decide (arg tst "lookup" = "") then
    errorString "no value to lookup specified"
  else if decide (arg tst "type" = "") then
    errorString "no record-type to lookup"
  else
    errorString ("unsupported record to lookup '" +:+ arg tst "type" +:+ "'").

(** The comparison of §4.3 step 6: sort, join with commas, compare. *)
Definition normalize (res : list string) : string :=
  Strings.Join (Sort.Strings res) ",".

Definition compare (res : list string) (result : string) : option error :=
  if decide (normalize res = result) then None
  else Some (errorString
    ("expected DNS result to be '" +:+ result +:+ "', but found '" +:+
     normalize res +:+ "'")).

Section Probe.
Variable Fqdn : string -> string.
Variable IPString : IP -> string.
Variable NewId : list Event -> Z.
Variable Exchange :
  list Event -> Client -> Msg -> string -> option Msg * option error.

(** The state [lookup] leaves behind when the query was sent. *)
Definition sent (server name ltype : string) (timeout : Z) (st : State)
    : State :=
  let q := query (NewId (log st)) (Fqdn name) ltype in
  {| localm := Some q; localc := Some (fresh_client timeout);
     log := log st ++
            [EvExchange (fresh_client timeout) q (hostport server 53)] |}.

(** What the network answers to that query. *)
Definition answer (server name ltype : string) (timeout : Z) (st : State)
    : option Msg * option error :=
  Exchange (log st) (fresh_client timeout)
           (query (NewId (log st)) (Fqdn name) ltype) (hostport server 53).

(** What [lookup] makes of the answer to its query. *)
Definition outcome (name : string) (a : option Msg * option error)
    : result (list string * option error) :=
  match a with
  | (_, Some e) => Done ([], Some e)
  | (None, None) => Done ([], None)
  | (Some r, None) =>
      if Rcode r =? RcodeNameError then
        Done ([], Some (errorString ("no such domain " +:+ Fqdn name)))
      else if Rcode r =? RcodeSuccess then
        match answers IPString (Answer r) [] with
        | Done results => Done (results, None)
        | Panic msg => Panic msg
        end
      else Done ([], None)
  end.
End Probe.

End DNSSpec.

Module IMAPSSpec.
Import test IMAPS.

(** The port [RunTest] resolves, and the error of parsing it if any. *)
Definition resolved_port (tst : Test) : Z * option error :=
  if decide (arg tst "port" = "") then (993, None)
  else Strconv.Atoi (arg tst "port").

(** Both credentials are present. *)
Definition credentials (tst : Test) : Prop :=
  arg tst "username" <> "" /\ arg tst "password" <> "".

(** The TLS configuration the specification asks for, given the name to
    verify the certificate against. *)
Definition tls_config (tst : Test) (name : string) : TLSConfig :=
  if decide (arg tst "tls" = "insecure")
  then {| ServerName := ""; InsecureSkipVerify := true |}
  else {| ServerName := name; InsecureSkipVerify := false |}.

(** The dial of one [RunTest]. *)
Definition dial_event (tst : Test) (target : string) (opts : Options)
    (port : Z) (name : string) : Event :=
  EvDial {| Dialer_Timeout := Timeout opts |} (hostport target port)
         (tls_config tst name).

Section Probe.
Variable Login : list Event -> string -> string -> option error.
Variable Logout : list Event -> option error.

(** What follows a successful dial, from the log [log] on: the error
    returned and the calls made. *)
Definition session (tst : Test) (log : list Event)
    : option error * list Event :=
  let u := arg tst "username" in
  let p := arg tst "password" in
  if decide (credentials tst) then
    match Login log u p with
    | Some e => (Some e, [EvLogin u p; EvClose])
    | None =>
        match Logout (log ++ [EvLogin u p]) with
        | Some e => (Some e, [EvLogin u p; EvLogout; EvClose])
        | None => (None, [EvLogin u p; EvLogout; EvClose])
        end
    end
  else (None, [EvClose]).
End Probe.

End IMAPSSpec.

Module EnqueueSpec.
Import test Enqueue.

(** The files handed to the parser, in order, according to a log. *)
Fixpoint parsed (log : list Event) : list string :=
  match log with
  | [] => []
  | EvParseFile file :: log' => file :: parsed log'
  | _ :: log' => parsed log'
  end.

(** The payloads appended to the queue, in order, according to a log. *)
Fixpoint pushed (log : list Event) : list string :=
  match log with
  | [] => []
  | EvRPush _ value :: log' => value :: pushed log'
  | _ :: log' => pushed log'
  end.

(** The queue client each revision creates. *)
Definition V1_options (p : V1.enqueueCmd) : RedisOptions :=
  {| Network := ""; Addr := V1.RedisHost p;
     Password := V1.RedisPassword p; DB := 0; DialTimeout := 0 |}.

Definition V2_options (p : V2.enqueueCmd) : RedisOptions :=
  if decide (V2.RedisSocket p = "") then
    {| Network := ""; Addr := V2.RedisHost p;
       Password := V2.RedisPassword p; DB := V2.RedisDB p;
       DialTimeout := V2.RedisDialTimeout p |}
  else
    {| Network := "unix"; Addr := V2.RedisSocket p;
       Password := V2.RedisPassword p; DB := V2.RedisDB p;
       DialTimeout := V2.RedisDialTimeout p |}.

(** The format of the line printed when the ping fails. *)
Definition ping_failed : string :=
  "Redis connection failed: %s" +:+ newline.

Section Cmd.
Variable RPush : list Event -> string -> string -> option error.
Variable ReadFile : list Event -> string -> list Line + error.

(** A file that is read, parsed and pushed without error whenever it is
    processed, and one whose processing fails whenever it is tried. *)
Definition file_ok (file : string) : Prop :=
  forall log,
    fst (ParseFile ReadFile file (enqueueTest RPush) log) = Done None.

Definition file_fails (file : string) : Prop :=
  forall log, exists e,
    fst (ParseFile ReadFile file (enqueueTest RPush) log) = Done (Some e).
End Cmd.

End EnqueueSpec.

(** A small world to run the probes in: names without a trailing dot,
    addresses already in text form, a fixed message id, and a server that
    answers every query with the records [rrs] and the response code [rc]. *)
Module Sample.
Import test DNS.

Definition Fqdn (s : string) : string := s +:+ ".".
Definition IPString (ip : IP) : string := ip.
Definition NewId (_ : list Event) : Z := 4242.

Definition Exchange (rc : Z) (rrs : list RR)
    (_ : list Event) (_ : Client) (m : Msg) (_ : string)
    : option Msg * option error :=
  (Some {| Id := Id m; RecursionDesired := true; Rcode := rc;
           Question_ := Question_ m; Answer := rrs |}, None).

Definition st0 : State := {| localm := None; localc := None; log := [] |}.

Definition opts : Options := {| Timeout := 5000000000 |}.

(** An IMAP server that accepts every connection and every logout, and
    the login of [user] with password [pass] only. *)
Definition Dial (_ : list IMAPS.Event) (_ : IMAPS.Dialer) (_ : string)
    (_ : IMAPS.TLSConfig) : option error := None.

Definition Login (user pass : string) (_ : list IMAPS.Event)
    (username password : string) : option error :=
  if decide (username = user /\ password = pass) then None
  else Some (externalError "Authentication failed.").

Definition Logout (_ : list IMAPS.Event) : option error := None.

(** A queue that is up and takes every job, and two files: [good.conf]
    with two tests and standard input with one; nothing else exists. *)
Definition Ping (_ : list Enqueue.Event) : option error := None.

Definition RPush (_ : list Enqueue.Event) (_ _ : string) : option error :=
  None.

Definition job (input : string) : Enqueue.Line :=
  Enqueue.Job {| Input := input; Arguments := ∅ |}.

Definition ReadFile (_ : list Enqueue.Event) (file : string)
    : list Enqueue.Line + error :=
  if decide (file = "good.conf") then
    inl [job "mail.example.com must run imaps";
         job "www.example.com must run http"]
  else if decide (file = "-") then
    inl [job "ns.example.com must run dns"]
  else inr (externalError "no such file or directory").

Definition cmd1 : Enqueue.V1.enqueueCmd :=
  {| Enqueue.V1.RedisHost := "localhost:6379";
     Enqueue.V1.RedisPassword := "" |}.

Definition cmd2 : Enqueue.V2.enqueueCmd :=
  {| Enqueue.V2.RedisDB := 0; Enqueue.V2.RedisHost := "localhost:6379";
     Enqueue.V2.RedisPassword := ""; Enqueue.V2.RedisSocket := "";
     Enqueue.V2.RedisDialTimeout := 5000000000 |}.

Definition imaps_test (input : string) (args : list (string * string))
    : Test :=
  {| Input := input; Arguments := list_to_map args |}.

Definition dns_test (lookup type result : string) : Test :=
  {| Input := "ns.example.com must run dns";
     Arguments := list_to_map
       [("lookup", lookup); ("type", type); ("result", result)] |}.

End Sample.

(** * Further vocabulary *)

Module DNSAnswers.
Import DNS.

(** A TXT record with no text chunk at all. *)
Definition empty_txt (rr : RR) : bool :=
  match rr with
  | TXT [] => true
  | _ => false
  end.

(** The record type codes of RFC 1035 and RFC 3596, by name. *)
Definition qtype_of (lookupType : string) : Z :=
  if decide (lookupType = "A") then 1
  else if decide (lookupType = "NS") then 2
  else if decide (lookupType = "MX") then 15
  else if decide (lookupType = "TXT") then 16
  else if decide (lookupType = "AAAA") then 28
  else 0.

Section Probe.
Variable IPString : IP -> string.

(** The string a record contributes to the result list, if any. *)
Definition canonical (rr : RR) : option string :=
  match rr with
  | A ip => Some (IPString ip)
  | AAAA ip => Some (IPString ip)
  | MX mxPrio mxName => Some (Fmt.d mxPrio +:+ " " +:+ mxName)
  | NS nameserver => Some nameserver
  | TXT (txt0 :: _) => Some txt0
  | TXT [] => None
  | OtherRR _ => None
  end.
End Probe.

End DNSAnswers.

Module PortSpec.

(** A string of decimal digits only, as the pattern of the [port]
    argument asks for (together with being non-empty). *)
Definition all_digits (s : string) : bool :=
  forallb Strconv.isDigit (list_ascii_of_string s).

(** The number a string of decimal digits denotes, read after [n]. *)
Fixpoint decimal_from (s : string) (n : Z) : Z :=
  match s with
  | EmptyString => n
  | String c s' => decimal_from s' (n * 10 + (Z.of_N (N_of_ascii c) - 48))
  end.

Definition decimal_value (s : string) : Z := decimal_from s 0.

End PortSpec.

Module EnqueueMoreSpec.
Import Enqueue.

(** A stretch of log without any printed line. *)
Definition quiet (evs : list Event) : Prop :=
  forall format e, EvPrintf format e ∉ evs.

End EnqueueMoreSpec.

Module FlagsSpec.

(** The flags each revision defines, and its built-in defaults. *)
Definition V1_names : list string := ["redis-host"; "redis-pass"].

Definition V2_names : list string :=
  ["redis-db"; "redis-host"; "redis-pass"; "redis-socket"; "redis-timeout"].

Definition V1_builtin : Enqueue.V1.enqueueCmd :=
  {| Enqueue.V1.RedisHost := "localhost:6379";
     Enqueue.V1.RedisPassword := "" |}.

Definition V2_builtin : Enqueue.V2.enqueueCmd :=
  {| Enqueue.V2.RedisDB := 0; Enqueue.V2.RedisHost := "localhost:6379";
     Enqueue.V2.RedisPassword := ""; Enqueue.V2.RedisSocket := "";
     Enqueue.V2.RedisDialTimeout := 5000000000 |}.

(** The default value a defined flag holds, if the flag is defined. *)
Definition default_of (formal : gmap string Flags.Flag) (name : string)
    : option Flags.Value :=
  Flags.DefValue <$> formal !! name.

End FlagsSpec.

(** A configuration file that names another queue host. *)
Module SampleFlags.

Definition Getenv (name : string) : string :=
  if decide (name = "OVERSEER") then "/etc/overseer.json" else "".

Definition ReadFile (path : string) : string * option error :=
  if decide (path = "/etc/overseer.json") then ("{...}", None)
  else ("", Some (externalError "no such file or directory")).

Definition Unmarshal1 (_ : string) (d : Enqueue.V1.enqueueCmd)
    : Enqueue.V1.enqueueCmd * option error :=
  ({| Enqueue.V1.RedisHost := "queue.example.com:6379";
      Enqueue.V1.RedisPassword := Enqueue.V1.RedisPassword d |}, None).

Definition Unmarshal2 (_ : string) (d : Enqueue.V2.enqueueCmd)
    : Enqueue.V2.enqueueCmd * option error :=
  ({| Enqueue.V2.RedisDB := Enqueue.V2.RedisDB d;
      Enqueue.V2.RedisHost := "queue.example.com:6379";
      Enqueue.V2.RedisPassword := Enqueue.V2.RedisPassword d;
      Enqueue.V2.RedisSocket := Enqueue.V2.RedisSocket d;
      Enqueue.V2.RedisDialTimeout := Enqueue.V2.RedisDialTimeout d |}, None).

(** A new flag set named [enqueue], bound to a zero-valued command. *)
Definition st1 : Flags.State Enqueue.V1.enqueueCmd :=
  {| Flags.cmd := {| Enqueue.V1.RedisHost := "";
                     Enqueue.V1.RedisPassword := "" |};
     Flags.fs_name := "enqueue"; Flags.formal := ∅; Flags.log := [] |}.

Definition st2 : Flags.State Enqueue.V2.enqueueCmd :=
  {| Flags.cmd := {| Enqueue.V2.RedisDB := 0; Enqueue.V2.RedisHost := "";
                     Enqueue.V2.RedisPassword := "";
                     Enqueue.V2.RedisSocket := "";
                     Enqueue.V2.RedisDialTimeout := 0 |};
     Flags.fs_name := "enqueue"; Flags.formal := ∅; Flags.log := [] |}.

End SampleFlags.

Module EnqueueRunSpec.
Import test Enqueue.

(** The format of the line printed when a file fails. *)
Definition parse_failed : string :=
  "Error parsing file: %s" +:+ newline.

Section Cmd.
Variable RPush : list Event -> string -> string -> option error.
Variable ReadFile : list Event -> string -> list Line + error.

(** [reaches pre log log']: started in [log], the loop of the later
    revision gets past the files [pre] and stands in [log'] before the
    next file: each file of [pre] was processed without error, in the
    state the run was in when its turn came, and none of them was ["-"]. *)
Inductive reaches : list string -> list Event -> list Event -> Prop :=
| reaches_nil log : reaches [] log log
| reaches_cons file pre log log' log'' :
    file <> "-" ->
    ParseFile ReadFile file (enqueueTest RPush) log = (Done None, log') ->
    reaches pre log' log'' ->
    reaches (file :: pre) log log''.

End Cmd.

(** A queue that takes two jobs and refuses every push after them (the
    log counts the calls made, refused ones included). *)
Definition RPush_two (log : list Event) (_ _ : string) : option error :=
  if (2 <=? length (EnqueueSpec.pushed log))%nat
  then Some (externalError "OOM command not allowed")
  else None.

End EnqueueRunSpec.

(** * Properties *)

Ltac monad_unfold :=
  unfold mbind, mret, M_bind, M_ret, bind, ret, pure_result, panic in *.

(** ** Go library facts used below *)

Lemma Strings_Sorted (x : list string) : Sorted String.le (Sort.Strings x).
Proof. apply (Sorted_merge_sort String.le). Qed.

Lemma Strings_Permutation (x : list string) : Sort.Strings x ≡ₚ x.
Proof. apply merge_sort_Permutation. Qed.

(** The sorted arrangement is unique: whatever algorithm [sort.Strings]
    runs, its output is the one computed here. *)
Lemma Strings_unique (x y : list string) :
  y ≡ₚ x -> Sorted String.le y -> y = Sort.Strings x.
Proof.
  intros Hp Hs. apply (Sorted_unique String.le); auto using Strings_Sorted.
  rewrite Hp. symmetry. apply Strings_Permutation.
Qed.

Lemma Strings_perm (x y : list string) :
  x ≡ₚ y -> Sort.Strings x = Sort.Strings y.
Proof.
  intros Hp. apply Strings_unique; auto using Strings_Sorted.
  rewrite Strings_Permutation. exact Hp.
Qed.

Lemma Strings_nil_iff (x : list string) : Sort.Strings x = [] <-> x = [].
Proof.
  split; [|intros ->; reflexivity].
  intros H. apply Permutation_nil. rewrite <- H. apply Strings_Permutation.
Qed.

Lemma Strings_singleton_iff (x : list string) (a : string) :
  Sort.Strings x = [a] <-> x = [a].
Proof.
  split; [|intros ->; reflexivity].
  intros H. symmetry. apply Permutation_singleton_l. rewrite <- H.
  apply Strings_Permutation.
Qed.

Lemma Join_empty_iff (elems : list string) (sep : string) :
  sep <> "" ->
  (Strings.Join elems sep = "" <-> elems = [] \/ elems = [""]).
Proof.
  intros Hsep. split.
  - destruct elems as [|e [|e' rest]]; simpl; auto.
    + intros ->. auto.
    + intros H. exfalso. destruct e; simpl in H; [|discriminate].
      destruct sep; [congruence | discriminate].
  - intros [-> | ->]; reflexivity.
Qed.

(** [strings.Contains(s, ":")] holds exactly when some byte of [s] is a
    colon. *)
Lemma Contains_colon (s : string) :
  Strings.Contains s ":" = true <-> In ":"%char (list_ascii_of_string s).
Proof.
  induction s as [|c s IH];
    cbn [Strings.Contains Strings.HasPrefix list_ascii_of_string In].
  - split; [discriminate | tauto].
  - rewrite orb_true_iff, IH. destruct (Ascii.eqb_spec ":"%char c) as [<-|Hn].
    + split; auto. intros _. left. destruct s; reflexivity.
    + split; (intros [H|H]; [congruence | tauto]).
Qed.

Example hostport_examples :
  hostport "192.0.2.1" 53 = "192.0.2.1:53" /\
  hostport "ns.example.com" 53 = "ns.example.com:53" /\
  hostport "2001:db8::1" 53 = "[2001:db8::1]:53" /\
  hostport "fe80::1%eth0" 993 = "[fe80::1%eth0]:993".
Proof. repeat split; reflexivity. Qed.

(** ** The DNS probe *)
Module DNSFacts.
Import test DNS DNSSpec.

Lemma StringToType_supported (lookupType : string) :
  default 0 (StringToType !! lookupType) <> 0 <-> lookupType ∈ supported.
Proof.
  unfold StringToType, supported. simpl list_to_map.
  rewrite !elem_of_cons, elem_of_nil.
  repeat (rewrite lookup_insert; case_decide;
          [subst; simpl; split; [intros _; tauto | intros _; discriminate] |]).
  rewrite lookup_empty. simpl. split; [congruence | intuition congruence].
Qed.

Lemma StringToType_unsupported (lookupType : string) :
  lookupType ∉ supported ->
  (default 0 (StringToType !! lookupType) =? 0) = true.
Proof.
  intros H. apply Z.eqb_eq.
  destruct (decide (default 0 (StringToType !! lookupType) = 0)) as [|Hn]; auto.
  apply StringToType_supported in Hn. contradiction.
Qed.

Lemma StringToType_supported_eqb (lookupType : string) :
  lookupType ∈ supported ->
  (default 0 (StringToType !! lookupType) =? 0) = false.
Proof. intros H. apply Z.eqb_neq. by apply StringToType_supported. Qed.

Lemma empty_not_supported : "" ∉ supported.
Proof. unfold supported. rewrite !elem_of_cons, elem_of_nil. intuition discriminate. Qed.

Section Probe.
Variable Fqdn : string -> string.
Variable IPString : IP -> string.
Variable NewId : list Event -> Z.
Variable Exchange :
  list Event -> Client -> Msg -> string -> option Msg * option error.

Abbreviation lookup := (lookup Fqdn IPString NewId Exchange).
Abbreviation localQuery := (localQuery NewId Exchange).
Abbreviation RunTest := (RunTest Fqdn IPString NewId Exchange).
Abbreviation sent := (sent Fqdn NewId).
Abbreviation answer := (answer Fqdn NewId Exchange).
Abbreviation outcome := (outcome Fqdn IPString).

(** [localQuery] and [lookup], run symbolically. *)
Lemma localQuery_supported server qname ltype m c lg :
  ltype ∈ supported ->
  let q := SetQuestion (NewId lg) m qname
             (default 0 (StringToType !! ltype)) in
  localQuery server qname ltype {| localm := Some m; localc := Some c; log := lg |} =
    (Done (match Exchange lg c q (hostport server 53) with
           | (_, Some e) => (None, Some e)
           | (None, None) => (None, None)
           | (Some r, None) =>
               if (Rcode r =? RcodeNameError) || (Rcode r =? RcodeSuccess)
               then (Some r, None) else (None, None)
           end),
     {| localm := Some q; localc := Some c;
        log := lg ++ [EvExchange c q (hostport server 53)] |}).
Proof.
  intros H q. unfold DNS.localQuery, localm_SetQuestion, localc_Exchange,
    hostport. monad_unfold. rewrite (StringToType_supported_eqb _ H).
  simpl. fold q.
  destruct (Strings.Contains server ":"); simpl;
  match goal with |- context [Exchange ?a ?b ?c ?d] =>
    destruct (Exchange a b c d) as [[r|] [e|]] end; simpl; try reflexivity;
  destruct (Rcode r =? RcodeNameError), (Rcode r =? RcodeSuccess);
  reflexivity.
Qed.

Lemma lookup_unsupported server name ltype timeout st :
  ltype ∉ supported ->
  lookup server name ltype timeout st =
    (Done ([], Some (errorString
             ("unsupported record to lookup '" +:+ ltype +:+ "'"))),
     allocated timeout st).
Proof.
  intros H. unfold DNS.lookup, DNS.localQuery, set_localm, set_localc.
  monad_unfold. rewrite (StringToType_unsupported _ H). reflexivity.
Qed.

Lemma lookup_supported server name ltype timeout st :
  ltype ∈ supported ->
  lookup server name ltype timeout st =
    (outcome name (answer server name ltype timeout st),
     sent server name ltype timeout st).
Proof.
  intros H. unfold DNS.lookup, set_localm, set_localc. monad_unfold.
  cbn beta iota delta [localm localc log].
  rewrite (localQuery_supported _ _ _ _ _ _ H).
  unfold DNSSpec.outcome, DNSSpec.answer, DNSSpec.sent, query, fresh_client.
  fold fresh_msg.
  match goal with |- context [Exchange ?a ?b ?c ?d] =>
    destruct (Exchange a b c d) as [[r|] [e|]] end; simpl; try reflexivity.
  destruct (Rcode r =? RcodeNameError) eqn:E1;
  destruct (Rcode r =? RcodeSuccess) eqn:E2; simpl; rewrite ?E1; simpl;
  try reflexivity;
  destruct (answers IPString (Answer r) []); reflexivity.
Qed.

(** [RunTest] after its two argument checks. *)
Lemma RunTest_checked tst target opts st :
  arg tst "lookup" <> "" -> arg tst "type" <> "" ->
  RunTest tst target opts st =
    match lookup target (arg tst "lookup") (arg tst "type") (Timeout opts) st with
    | (Done (res, Some e), st') => (Done (Some e), st')
    | (Done (res, None), st') => (Done (compare res (arg tst "result")), st')
    | (Panic msg, st') => (Panic msg, st')
    end.
Proof.
  intros H1 H2. unfold DNS.RunTest, compare, normalize.
  rewrite !decide_False by assumption. monad_unfold.
  destruct (lookup _ _ _ _ st) as [[[res [e|]]|msg] st']; try reflexivity.
  case_decide; reflexivity.
Qed.

Lemma RunTest_rejected tst target opts st :
  arg tst "lookup" = "" \/ arg tst "type" = "" ->
  RunTest tst target opts st = (Done (Some (argument_error tst)), st).
Proof.
  intros H. unfold DNS.RunTest, argument_error.
  destruct (decide (arg tst "lookup" = "")); [reflexivity|].
  destruct (decide (arg tst "type" = "")); [reflexivity|]. tauto.
Qed.

(** The network calls of one [RunTest]: none, or the one query, sent to
    [hostport target 53]. *)
Lemma DNS_RunTest_log tst target opts st :
  log (snd (RunTest tst target opts st)) = log st \/
  log (snd (RunTest tst target opts st)) =
    log st ++ [EvExchange (fresh_client (Timeout opts))
                 (query (NewId (log st)) (Fqdn (arg tst "lookup"))
                        (arg tst "type"))
                 (hostport target 53)].
Proof.
  destruct (decide (arg tst "lookup" = "")) as [H1|H1];
    [left; rewrite RunTest_rejected by auto; reflexivity|].
  destruct (decide (arg tst "type" = "")) as [H2|H2];
    [left; rewrite RunTest_rejected by auto; reflexivity|].
  rewrite RunTest_checked by assumption.
  destruct (decide (arg tst "type" ∈ supported)) as [Hs|Hs].
  - right. rewrite lookup_supported by assumption.
    destruct (outcome _ _) as [[res [e|]]|msg]; reflexivity.
  - left. rewrite lookup_unsupported by assumption. reflexivity.
Qed.

(** C1, as amended: [lookup] overwrites the package-level [localm] and
    [localc] with freshly allocated objects before it uses them.  A
    [RunTest] that passes the two argument checks therefore does write
    them, and leaves them pointing at this call's message and client; a
    test rejected for an empty [lookup] or [type] leaves the whole state
    as it was.  Run one call after the other, neither the outcome of
    [RunTest] nor the state it leaves depends on what the two variables
    held before the call. *)
Theorem C1_globals_overwritten_never_read tst target opts st m c :
  let run := RunTest tst target opts in
  (forall server name ltype timeout,
     lookup server name ltype timeout (with_globals m c st) =
     lookup server name ltype timeout st /\
     localc (snd (lookup server name ltype timeout st)) =
       Some (fresh_client timeout) /\
     (localm (snd (lookup server name ltype timeout st)) = Some fresh_msg \/
      localm (snd (lookup server name ltype timeout st)) =
        Some (query (NewId (log st)) (Fqdn name) ltype))) /\
  fst (run (with_globals m c st)) = fst (run st) /\
  log (snd (run (with_globals m c st))) = log (snd (run st)) /\
  if decide (arg tst "lookup" = "" \/ arg tst "type" = "")
  then snd (run st) = st
  else snd (run (with_globals m c st)) = snd (run st) /\
       localc (snd (run st)) = Some (fresh_client (Timeout opts)) /\
       (localm (snd (run st)) = Some fresh_msg \/
        localm (snd (run st)) =
          Some (query (NewId (log st)) (Fqdn (arg tst "lookup"))
                      (arg tst "type"))).
Proof.
  intros run. unfold run. split.
  { intros server name ltype timeout.
    destruct (decide (ltype ∈ supported)) as [Hs|Hs].
    - rewrite !lookup_supported by assumption. auto.
    - rewrite !lookup_unsupported by assumption. auto. }
  case_decide as Hd.
  - rewrite !RunTest_rejected by assumption. auto.
  - assert (arg tst "lookup" <> "" /\ arg tst "type" <> "") as [H1 H2]
      by (split; intros E; apply Hd; auto).
    rewrite !RunTest_checked by assumption.
    destruct (decide (arg tst "type" ∈ supported)) as [Hs|Hs].
    + rewrite !lookup_supported by assumption.
      unfold DNSSpec.answer, DNSSpec.sent, with_globals. simpl.
      destruct (outcome _ _) as [[res [e|]]|msg]; simpl; auto 10.
    + rewrite !lookup_unsupported by assumption.
      unfold allocated, with_globals. simpl. auto 10.
Qed.

(** C2: when the exchange returns a response and no transport error, the
    response code is handled in three ways.  Success: [localQuery]
    hands the response on and [lookup] extracts its answers.  Name
    error: [lookup] returns the error "no such domain" followed by the
    fully-qualified lookup name.  Any other code: neither answers nor an
    error, and [RunTest] goes on to compare the empty result set. *)
Theorem C2_response_code_tristate tst target opts st r :
  arg tst "lookup" <> "" ->
  arg tst "type" ∈ supported ->
  answer target (arg tst "lookup") (arg tst "type") (Timeout opts) st
    = (Some r, None) ->
  fst (localQuery target (Fqdn (arg tst "lookup")) (arg tst "type")
         (allocated (Timeout opts) st)) =
    Done (if (Rcode r =? RcodeSuccess) || (Rcode r =? RcodeNameError)
          then (Some r, None) else (None, None)) /\
  fst (lookup target (arg tst "lookup") (arg tst "type") (Timeout opts) st) =
    (if Rcode r =? RcodeSuccess then
       match answers IPString (Answer r) [] with
       | Done results => Done (results, None)
       | Panic msg => Panic msg
       end
     else if Rcode r =? RcodeNameError then
       Done ([], Some (errorString
               ("no such domain " +:+ Fqdn (arg tst "lookup"))))
     else Done ([], None)) /\
  fst (RunTest tst target opts st) =
    (if Rcode r =? RcodeSuccess then
       match answers IPString (Answer r) [] with
       | Done results => Done (compare results (arg tst "result"))
       | Panic msg => Panic msg
       end
     else if Rcode r =? RcodeNameError then
       Done (Some (errorString
               ("no such domain " +:+ Fqdn (arg tst "lookup"))))
     else Done (compare [] (arg tst "result"))).
Proof.
  intros H1 Hs Ha.
  assert (arg tst "type" <> "") as H2
    by (intros E; rewrite E in Hs; exact (empty_not_supported Hs)).
  split; [|split].
  - unfold allocated. rewrite localQuery_supported by assumption.
    unfold DNSSpec.answer, query in Ha. simpl. rewrite Ha.
    rewrite orb_comm. reflexivity.
  - rewrite lookup_supported by assumption. rewrite Ha. simpl.
    destruct (Z.eqb_spec (Rcode r) RcodeSuccess) as [E|E];
      [rewrite E; reflexivity|].
    destruct (Rcode r =? RcodeNameError); reflexivity.
  - rewrite RunTest_checked, lookup_supported by assumption.
    rewrite Ha. simpl.
    destruct (Z.eqb_spec (Rcode r) RcodeSuccess) as [E|E].
    + rewrite E. simpl.
      destruct (answers IPString (Answer r) []); reflexivity.
    + destruct (Rcode r =? RcodeNameError); reflexivity.
Qed.

(** C4, as amended: [RunTest] sorts the extracted strings
    lexicographically, joins them with commas and compares the joined
    string byte for byte with the [result] argument; any difference is
    a mismatch error naming the expected and the found string.  The
    comparison does not depend on the order of the answers (both orders
    of "a" and "b" give "a,b").  An empty [result] matches exactly the
    answer lists whose joined string is empty: the empty list, and the
    list holding one empty string. *)
Theorem C4_sorted_join_comparison tst target opts st res st' :
  arg tst "lookup" <> "" ->
  arg tst "type" <> "" ->
  lookup target (arg tst "lookup") (arg tst "type") (Timeout opts) st
    = (Done (res, None), st') ->
  let found := Strings.Join (Sort.Strings res) "," in
  RunTest tst target opts st =
    (Done (if decide (found = arg tst "result") then None
           else Some (errorString
             ("expected DNS result to be '" +:+ arg tst "result" +:+
              "', but found '" +:+ found +:+ "'"))), st') /\
  Sorted String.le (Sort.Strings res) /\
  Sort.Strings res ≡ₚ res /\
  (forall res', res' ≡ₚ res ->
     Strings.Join (Sort.Strings res') "," = found) /\
  Strings.Join (Sort.Strings ["b"; "a"]) "," = "a,b" /\
  Strings.Join (Sort.Strings ["a"; "b"]) "," = "a,b" /\
  (found = "" <-> res = [] \/ res = [""]).
Proof.
  intros H1 H2 Hl found.
  split; [|split; [|split; [|split; [|split; [|split]]]]].
  - rewrite RunTest_checked, Hl by assumption. reflexivity.
  - apply Strings_Sorted.
  - apply Strings_Permutation.
  - intros res' Hp. unfold found. by rewrite (Strings_perm _ _ Hp).
  - reflexivity.
  - reflexivity.
  - unfold found. rewrite Join_empty_iff by discriminate.
    by rewrite Strings_nil_iff, Strings_singleton_iff.
Qed.

(** C5: an empty [lookup], an empty [type], or a [type] outside A,
    AAAA, MX, NS, TXT makes [RunTest] return an argument error with no
    network call made; an empty [result] is not an error: with valid
    arguments and no answers it is the expected outcome. *)
Theorem C5_argument_errors_before_network tst target opts st :
  (arg tst "lookup" = "" \/ arg tst "type" = "" \/
   arg tst "type" ∉ supported ->
   fst (RunTest tst target opts st) = Done (Some (argument_error tst)) /\
   log (snd (RunTest tst target opts st)) = log st) /\
  (arg tst "lookup" <> "" -> arg tst "type" ∈ supported ->
   arg tst "result" = "" ->
   fst (lookup target (arg tst "lookup") (arg tst "type") (Timeout opts) st)
     = Done ([], None) ->
   fst (RunTest tst target opts st) = Done None).
Proof.
  split.
  - intros H.
    destruct (decide (arg tst "lookup" = "" \/ arg tst "type" = ""))
      as [Hd|Hd].
    + rewrite RunTest_rejected by assumption. auto.
    + assert (arg tst "lookup" <> "" /\ arg tst "type" <> "") as [H1 H2]
        by (split; intros E; apply Hd; auto).
      assert (arg tst "type" ∉ supported) as Hs by tauto.
      rewrite RunTest_checked, lookup_unsupported by assumption.
      unfold argument_error. rewrite !decide_False by assumption.
      auto.
  - intros H1 Hs Hr Hl.
    assert (arg tst "type" <> "") as H2
      by (intros E; rewrite E in Hs; exact (empty_not_supported Hs)).
    rewrite RunTest_checked by assumption.
    destruct (lookup _ _ _ _ st) as [[[res [e|]]|msg] st'];
      simpl in Hl; try discriminate.
    injection Hl as ->. rewrite Hr. reflexivity.
Qed.

End Probe.

(** A run of C1's claim as it was written: the call starts with both
    package-level variables nil, succeeds, and leaves them set. *)
Lemma C1_globals_written :
  let tst := Sample.dns_test "www.example.com" "A" "192.0.2.7" in
  let run := DNS.RunTest Sample.Fqdn Sample.IPString Sample.NewId
               (Sample.Exchange RcodeSuccess [A "192.0.2.7"])
               tst "192.0.2.53" Sample.opts Sample.st0 in
  fst run = Done None /\
  localm Sample.st0 = None /\ localc Sample.st0 = None /\
  localm (snd run) = Some (query 4242 "www.example.com." "A") /\
  localc (snd run) = Some (fresh_client 5000000000) /\
  snd run <> Sample.st0.
Proof. vm_compute. repeat split; discriminate. Qed.

End DNSFacts.

(** ** [unicode/utf8] *)

Lemma append_String (c : ascii) (s1 s2 : string) :
  String c s1 +:+ s2 = String c (s1 +:+ s2).
Proof. reflexivity. Qed.

Lemma append_assoc (s1 s2 s3 : string) :
  (s1 +:+ s2) +:+ s3 = s1 +:+ s2 +:+ s3.
Proof.
  induction s1 as [|c s1 IH]; [reflexivity|].
  by rewrite !append_String, IH.
Qed.

Lemma take_drop (n : nat) (s : string) : Utf8.take n s +:+ Utf8.drop n s = s.
Proof.
  revert s. induction n as [|n IH]; intros [|c s]; try reflexivity.
  cbn [Utf8.take Utf8.drop]. by rewrite append_String, IH.
Qed.

Lemma drop_length (n : nat) (s : string) :
  String.length (Utf8.drop n s) = (String.length s - n)%nat.
Proof.
  revert s. induction n as [|n IH]; intros [|c s]; simpl; auto with lia.
Qed.

Lemma first_size (b : N) (sz : nat) (lo hi : N) :
  Utf8.first b = Some (sz, lo, hi) -> (2 <= sz <= 4)%nat.
Proof.
  unfold Utf8.first. intros H.
  repeat case_match; simplify_eq; lia.
Qed.

(** A rune of a non-empty string is between one and four bytes wide and
    lies within the string. *)
Lemma DecodeRuneInString_width (s : string) (r : N) (w : nat) :
  s <> "" -> Utf8.DecodeRuneInString s = (r, w) ->
  (1 <= w <= String.length s)%nat /\ (w <= 4)%nat.
Proof.
  destruct s as [|c0 s]; [congruence|]. intros _.
  unfold Utf8.DecodeRuneInString.
  destruct (N_of_ascii c0 <? 128)%N; [intros [= <- <-]; simpl; lia|].
  destruct (Utf8.first (N_of_ascii c0)) as [[[sz lo] hi]|] eqn:Hfirst;
    [|intros [= <- <-]; simpl; lia].
  apply first_size in Hfirst.
  destruct (Nat.ltb_spec (String.length (String c0 s)) sz) as [Hl|Hl];
    [intros [= <- <-]; simpl; lia|].
  destruct (_ || _); [intros [= <- <-]; simpl; lia|].
  destruct (Nat.leb_spec sz 2); [intros [= <- <-]; simpl in *; lia|].
  destruct (negb _); [intros [= <- <-]; simpl; lia|].
  destruct (Nat.leb_spec sz 3); [intros [= <- <-]; simpl in *; lia|].
  destruct (negb _); [intros [= <- <-]; simpl; lia|].
  intros [= <- <-]. simpl in *. lia.
Qed.

Lemma runes_go_cons (fuel : nat) (c : ascii) (s : string) :
  Utf8.runes_go (S fuel) (String c s) =
    (fst (Utf8.DecodeRuneInString (String c s)),
     Utf8.take (snd (Utf8.DecodeRuneInString (String c s))) (String c s))
    :: Utf8.runes_go fuel
         (Utf8.drop (snd (Utf8.DecodeRuneInString (String c s))) (String c s)).
Proof.
  cbn [Utf8.runes_go]. by destruct (Utf8.DecodeRuneInString (String c s)).
Qed.

(** [length s] steps are enough: the runes cover the whole string. *)
Lemma runes_go_bytes (fuel : nat) (s : string) :
  (String.length s <= fuel)%nat ->
  String.concat "" (Utf8.runes_go fuel s).*2 = s.
Proof.
  revert s. induction fuel as [|fuel IH]; intros [|c s] Hlen;
    try reflexivity; [simpl in Hlen; lia|].
  rewrite runes_go_cons.
  destruct (Utf8.DecodeRuneInString (String c s)) as [r w] eqn:Hd.
  apply DecodeRuneInString_width in Hd as [Hw _]; [|discriminate].
  cbn [fst snd fmap list_fmap].
  assert (forall a l, String.concat "" (a :: l) = a +:+ String.concat "" l)
    as Hconcat.
  { intros a [|b l]; cbn [String.concat]; [|reflexivity].
    clear. induction a as [|x a IHa]; [reflexivity|].
    by rewrite append_String, <- IHa. }
  rewrite Hconcat. fold (@fmap list _ _ _ (@snd N string)).
  rewrite IH; [apply take_drop|].
  rewrite drop_length. simpl in *. lia.
Qed.

Lemma runes_bytes (s : string) : String.concat "" (Utf8.runes s).*2 = s.
Proof. by apply runes_go_bytes. Qed.


Lemma runes_ascii (c : ascii) (s : string) :
  (N_of_ascii c <? 0x80)%N = true ->
  Utf8.runes (String c s) = (N_of_ascii c, String c "") :: Utf8.runes s.
Proof.
  intros H. unfold Utf8.runes. cbn [String.length].
  rewrite runes_go_cons. unfold Utf8.DecodeRuneInString. rewrite H.
  reflexivity.
Qed.

Lemma append_empty_r (s : string) : s +:+ "" = s.
Proof. induction s as [|c s IH]; [reflexivity|]. by rewrite append_String, IH. Qed.

(** ** [strings.Fields] *)

Lemma split_blank (rs : list (N * string)) :
  Forall (fun rb => Unicode.IsSpace (fst rb) = true) rs ->
  Fields.split Unicode.IsSpace rs None = [].
Proof.
  induction 1 as [|[r b] rs Hr _ IH]; simpl in *; [reflexivity|].
  by rewrite Hr.
Qed.

Lemma split_nil (rs : list (N * string)) (cur : option string) :
  Fields.split Unicode.IsSpace rs cur = [] ->
  cur = None /\ Forall (fun rb => Unicode.IsSpace (fst rb) = true) rs.
Proof.
  revert cur. induction rs as [|[r b] rs IH]; intros cur; simpl.
  - destruct cur; [discriminate | auto].
  - destruct (Unicode.IsSpace r) eqn:Hr.
    + destruct cur; [discriminate|]. intros H. destruct (IH _ H) as [_ Hf].
      split; [reflexivity|]. constructor; assumption.
    + intros H. destruct (IH _ H) as [Hc _]. discriminate.
Qed.

(** [strings.Fields] returns no field exactly for a blank string. *)
Lemma Fields_nil_iff (s : string) : strings_Fields s = [] <-> blank s.
Proof.
  unfold strings_Fields, blank. split.
  - intros H. by destruct (split_nil _ _ H).
  - apply split_blank.
Qed.

(** Reading a run of plain characters closed by a space. *)
Lemma split_token (tok rest : string) (cur : option string) :
  Forall plain (list_ascii_of_string tok) ->
  Fields.split Unicode.IsSpace (Utf8.runes (tok +:+ String " " rest)) cur =
    match tok, cur with
    | EmptyString, None => Fields.split Unicode.IsSpace (Utf8.runes rest) None
    | _, _ => (default "" cur +:+ tok)
              :: Fields.split Unicode.IsSpace (Utf8.runes rest) None
    end.
Proof.
  revert cur. induction tok as [|c tok IH]; intros cur Hp.
  - change ("" +:+ String " " rest) with (String " " rest).
    rewrite runes_ascii by reflexivity. cbn [Fields.split].
    change (Unicode.IsSpace (N_of_ascii " ")) with true. cbn iota.
    destruct cur; [|reflexivity]. simpl default. by rewrite append_empty_r.
  - cbn [list_ascii_of_string] in Hp. apply Forall_cons in Hp as [[Ha Hs] Hp].
    rewrite append_String, runes_ascii by assumption.
    cbn [Fields.split]. rewrite Hs, (IH _ Hp).
    destruct tok, cur; cbn [default from_option id]; f_equal;
      by rewrite ?append_assoc, ?append_String.
Qed.

(** The first field of a line that starts with a word of plain characters
    followed by a space is that word. *)
Lemma Fields_first_token (tok rest : string) :
  tok <> "" -> Forall plain (list_ascii_of_string tok) ->
  head (strings_Fields (tok +:+ String " " rest)) = Some tok.
Proof.
  intros Hne Hp. unfold strings_Fields. rewrite split_token by assumption.
  destruct tok; [congruence|]. reflexivity.
Qed.

Example Fields_line :
  strings_Fields "  host.example.com must run  imaps " =
  ["host.example.com"; "must"; "run"; "imaps"].
Proof. reflexivity. Qed.

(** U+00A0 (bytes C2 A0) separates fields; a stray byte A0 does not. *)
Example Fields_nbsp :
  strings_Fields
    (String "a" (String (ascii_of_N 0xC2) (String (ascii_of_N 0xA0) "b")))
    = ["a"; "b"] /\
  strings_Fields (String "a" (String (ascii_of_N 0xA0) "b")) =
    [String "a" (String (ascii_of_N 0xA0) "b")].
Proof. split; reflexivity. Qed.

Example Atoi_examples :
  Strconv.Atoi "993" = (993, None) /\
  Strconv.Atoi "-5" = (-5, None) /\
  Strconv.Atoi "+" = (0, Some (NumError "Atoi" "+" ErrSyntax)) /\
  Strconv.Atoi "12a" = (0, Some (NumError "Atoi" "12a" ErrSyntax)) /\
  Strconv.Atoi "9223372036854775808" =
    (9223372036854775807,
     Some (NumError "Atoi" "9223372036854775808" ErrRange)) /\
  Strconv.Atoi "-9223372036854775808" = (-9223372036854775808, None).
Proof. repeat split; reflexivity. Qed.

(** ** The IMAPS probe *)
Module IMAPSFacts.
Import test IMAPS IMAPSSpec.

Section Probe.
Variable DialWithDialerTLS :
  list Event -> Dialer -> string -> TLSConfig -> option error.
Variable Login : list Event -> string -> string -> option error.
Variable Logout : list Event -> option error.

Abbreviation RunTest := (RunTest DialWithDialerTLS Login Logout).
Abbreviation session := (session Login Logout).

(** [RunTest], run symbolically: the port, the first field of the
    input line, the dial, the session. *)
Lemma RunTest_run tst target opts log :
  RunTest tst target opts log =
    match resolved_port tst with
    | (_, Some e) => (Done (Some e), log)
    | (port, None) =>
        match strings_Fields (Input tst) with
        | [] => (Panic (index_out_of_range 0 0), log)
        | name :: _ =>
            let ev := dial_event tst target opts port name in
            match DialWithDialerTLS log
                    {| Dialer_Timeout := Timeout opts |}
                    (hostport target port) (tls_config tst name) with
            | Some e => (Done (Some e), log ++ [ev])
            | None =>
                (Done (fst (session tst (log ++ [ev]))),
                 log ++ [ev] ++ snd (session tst (log ++ [ev])))
            end
        end
    end.
Proof.
  unfold IMAPS.RunTest, resolved_port.
  destruct (if decide (arg tst "port" = "") then _ else _) as [port [e|]];
    [reflexivity|].
  unfold index0. monad_unfold.
  destruct (strings_Fields (Input tst)) as [|name rest]; [reflexivity|].
  cbv zeta. unfold dial_tls, dial_event, tls_config, hostport.
  destruct (decide (arg tst "tls" = "insecure")) as [Ht|Ht];
    [rewrite (bool_decide_true _ Ht) | rewrite (bool_decide_false _ Ht)].
  all: set (addr := if Strings.Contains target ":" then _ else _).
  all: match goal with |- context [DialWithDialerTLS ?l ?d ?a ?c] =>
         destruct (DialWithDialerTLS l d a c) as [e|] end;
       [reflexivity|].
  all: unfold defer, IMAPSSpec.session, credentials, con_Login,
         con_Logout, con_Close.
  all: destruct (decide (arg tst "username" = "")) as [Hu|Hu];
       [rewrite (bool_decide_true _ Hu); simpl;
        rewrite decide_False by tauto; simpl; by rewrite <- app_assoc|].
  all: destruct (decide (arg tst "password" = "")) as [Hp|Hp];
       [rewrite (bool_decide_true _ Hp), andb_false_r;
        rewrite decide_False by tauto; simpl; by rewrite <- app_assoc|].
  all: rewrite (bool_decide_false _ Hu), (bool_decide_false _ Hp);
       rewrite decide_True by tauto; simpl.
  all: destruct (Login _ _ _) as [e|]; simpl;
       [by rewrite <- !app_assoc|].
  all: destruct (Logout _) as [e|]; simpl; by rewrite <- !app_assoc.
Qed.

(** The calls of one [RunTest]: none, or a dial to
    [hostport target port] followed by the session. *)
Lemma IMAPS_RunTest_log tst target opts log :
  snd (RunTest tst target opts log) = log \/
  exists name tail,
    head (strings_Fields (Input tst)) = Some name /\
    snd (RunTest tst target opts log) =
      log ++ dial_event tst target opts (fst (resolved_port tst)) name
             :: tail.
Proof.
  rewrite RunTest_run.
  destruct (resolved_port tst) as [port [e|]]; [by left|].
  destruct (strings_Fields (Input tst)) as [|name rest]; [by left|].
  right. exists name. cbv zeta.
  destruct (DialWithDialerTLS _ _ _ _) as [e|]; simpl; eauto.
Qed.

(** C6: once the connection is established, the login is attempted if
    and only if both [username] and [password] are non-empty.  A login
    failure is returned with no logout attempted; after a successful
    login the logout is issued, and its failure is returned too; with
    either credential empty [RunTest] returns nil.  The deferred call
    [con.Close()] is made last on each of these paths. *)
Theorem C6_login_iff_both_credentials tst target opts log port name rest :
  resolved_port tst = (port, None) ->
  strings_Fields (Input tst) = name :: rest ->
  DialWithDialerTLS log {| Dialer_Timeout := Timeout opts |}
    (hostport target port) (tls_config tst name) = None ->
  let u := arg tst "username" in
  let p := arg tst "password" in
  let log1 := log ++ [dial_event tst target opts port name] in
  RunTest tst target opts log =
    if decide (u <> "" /\ p <> "") then
      match Login log1 u p with
      | Some e => (Done (Some e), log1 ++ [EvLogin u p; EvClose])
      | None =>
          match Logout (log1 ++ [EvLogin u p]) with
          | Some e =>
              (Done (Some e), log1 ++ [EvLogin u p; EvLogout; EvClose])
          | None =>
              (Done None, log1 ++ [EvLogin u p; EvLogout; EvClose])
          end
      end
    else (Done None, log1 ++ [EvClose]).
Proof.
  intros Hp Hf Hd u p log1. rewrite RunTest_run, Hp, Hf. cbv zeta.
  rewrite Hd. unfold IMAPSSpec.session, credentials. fold u p log1.
  case_decide; [|unfold log1; by rewrite <- app_assoc].
  destruct (Login log1 u p); [unfold log1; by rewrite <- app_assoc|].
  destruct (Logout _); unfold log1; by rewrite <- app_assoc.
Qed.

(** C7: every TLS configuration [RunTest] dials with is built from the
    test alone, not from [target]: its server name is the first
    white-space-delimited field of [Input], with certificate
    verification on; unless [tls] is [insecure], in which case
    verification is off and no server name is set. *)
Theorem C7_server_name_from_input tst target opts log evs d a cfg :
  snd (RunTest tst target opts log) = log ++ evs ->
  EvDial d a cfg ∈ evs ->
  if decide (arg tst "tls" = "insecure")
  then cfg = {| ServerName := ""; InsecureSkipVerify := true |}
  else InsecureSkipVerify cfg = false /\
       head (strings_Fields (Input tst)) = Some (ServerName cfg).
Proof.
  rewrite RunTest_run. intros Hlog Hin.
  assert (forall l : list Event, log = log ++ l -> l = []) as Hnil.
  { intros l E. apply (app_inv_head log). by rewrite app_nil_r. }
  destruct (resolved_port tst) as [port [e|]]; simpl in Hlog.
  { apply Hnil in Hlog. subst. by apply elem_of_nil in Hin. }
  destruct (strings_Fields (Input tst)) as [|name rest]; simpl in Hlog.
  { apply Hnil in Hlog. subst. by apply elem_of_nil in Hin. }
  assert (cfg = tls_config tst name) as ->.
  { destruct (DialWithDialerTLS _ _ _ _) as [e|]; simpl in Hlog;
      apply app_inv_head in Hlog; subst evs.
    - apply list_elem_of_singleton in Hin. by injection Hin.
    - apply elem_of_cons in Hin as [Hin|Hin]; [by injection Hin|].
      unfold IMAPSSpec.session in Hin.
      repeat (case_decide || case_match || simpl in Hin);
        repeat (apply elem_of_cons in Hin as [Hin|Hin]; [discriminate|]);
        by apply elem_of_nil in Hin. }
  unfold tls_config. case_decide; auto.
Qed.

(** C9, as amended: when [Input] holds no non-white-space character and
    the [port] argument is empty or parses, [RunTest] indexes the first
    element of an empty field list and panics instead of returning an
    error, with no connection attempted.  The index expression comes
    before the [tls] argument is acted on, so the panic happens for
    [tls insecure] as well. *)
Theorem C9_blank_input_panics tst target opts log :
  blank (Input tst) ->
  snd (resolved_port tst) = None ->
  strings_Fields (Input tst) = [] /\
  RunTest tst target opts log =
    (Panic "runtime error: index out of range [0] with length 0", log).
Proof.
  intros Hb Hp. apply Fields_nil_iff in Hb. split; [exact Hb|].
  rewrite RunTest_run, Hb.
  destruct (resolved_port tst) as [port [e|]]; [discriminate|].
  reflexivity.
Qed.

End Probe.

(** C9 as it was written fails when the [port] argument does not parse:
    a port of twenty digits passes the pattern of [Arguments] and is out
    of range for [strconv.Atoi], and [RunTest] returns that error before
    it looks at [Input]. *)
Lemma C9_port_error_comes_first :
  let tst := Sample.imaps_test "" [("port", "99999999999999999999")] in
  blank (Input tst) /\
  IMAPS.RunTest Sample.Dial (Sample.Login "u" "p") Sample.Logout
    tst "192.0.2.1" Sample.opts [] =
    (Done (Some (NumError "Atoi" "99999999999999999999" ErrRange)), []).
Proof. split; [constructor | vm_compute; reflexivity]. Qed.

End IMAPSFacts.

(** ** The enqueue sub-command *)
Module EnqueueFacts.
Import test Enqueue EnqueueSpec.

Lemma parsed_app (l1 l2 : list Event) :
  parsed (l1 ++ l2) = parsed l1 ++ parsed l2.
Proof.
  induction l1 as [|ev l1 IH]; [reflexivity|].
  destruct ev; simpl; by rewrite IH.
Qed.

Section Cmd.
Variable Ping : list Event -> option error.
Variable RPush : list Event -> string -> string -> option error.
Variable ReadFile : list Event -> string -> list Line + error.

Abbreviation enqueueTest := (enqueueTest RPush).
Abbreviation ParseFile := (ParseFile ReadFile).
Abbreviation file_ok := (file_ok RPush ReadFile).
Abbreviation file_fails := (file_fails RPush ReadFile).

(** One synchronous push per test, the payload being [Input]. *)
Lemma enqueueTest_run tst log :
  enqueueTest tst log =
    (Done (RPush log "overseer.jobs" (Input tst)),
     log ++ [EvRPush "overseer.jobs" (Input tst)]).
Proof. reflexivity. Qed.

(** The parser returns, appends one queue entry per test it accepts,
    and reads no file. *)
Lemma parse_lines_log lines log :
  exists r evs,
    parse_lines lines enqueueTest log = (Done r, log ++ evs) /\
    parsed evs = [].
Proof.
  revert log. induction lines as [|[tst|e] lines IH]; intros log.
  - exists None, []. by rewrite app_nil_r.
  - cbn [parse_lines]. monad_unfold. rewrite enqueueTest_run.
    destruct (RPush log "overseer.jobs" (Input tst)) as [e|].
    + exists (Some e), [EvRPush "overseer.jobs" (Input tst)]. auto.
    + destruct (IH (log ++ [EvRPush "overseer.jobs" (Input tst)]))
        as (r & evs & -> & Hp).
      exists r, (EvRPush "overseer.jobs" (Input tst) :: evs).
      by rewrite <- app_assoc.
  - exists (Some e), []. by rewrite app_nil_r.
Qed.

Lemma ParseFile_log file log :
  exists r log',
    ParseFile file enqueueTest log = (Done r, log') /\
    parsed log' = parsed log ++ [file].
Proof.
  unfold Enqueue.ParseFile, read_file. monad_unfold.
  destruct (ReadFile log file) as [lines|e].
  - destruct (parse_lines_log lines (log ++ [EvParseFile file]))
      as (r & evs & -> & Hp).
    exists r, ((log ++ [EvParseFile file]) ++ evs). split; [reflexivity|].
    by rewrite !parsed_app, Hp, app_nil_r.
  - exists (Some e), (log ++ [EvParseFile file]). split; [reflexivity|].
    by rewrite parsed_app.
Qed.

(** *** The earlier revision *)

Lemma V1_files_cons file rest log :
  V1.files RPush ReadFile (file :: rest) log =
    match ParseFile file enqueueTest log with
    | (Done (Some e), log') =>
        V1.files RPush ReadFile rest
          (log' ++ [EvPrintf ("Error parsing file: %s" +:+ newline) e])
    | (Done None, log') => V1.files RPush ReadFile rest log'
    | (Panic msg, log') => (Panic msg, log')
    end.
Proof.
  cbn [V1.files]. unfold Printf. monad_unfold.
  destruct (ParseFile file enqueueTest log) as [[[e|]|msg] log'];
    reflexivity.
Qed.

(** The loop hands every file to the parser, in order, whatever the
    fate of the files before it. *)
Lemma V1_files_all args log :
  exists log',
    V1.files RPush ReadFile args log = (Done tt, log') /\
    parsed log' = parsed log ++ args.
Proof.
  revert log. induction args as [|file rest IH]; intros log.
  - exists log. by rewrite app_nil_r.
  - rewrite V1_files_cons.
    destruct (ParseFile_log file log) as (r & log1 & -> & Hp).
    destruct r as [e|].
    + destruct (IH (log1 ++ [EvPrintf ("Error parsing file: %s" +:+ newline) e]))
        as (log' & -> & Hp').
      exists log'. split; [reflexivity|].
      rewrite Hp', parsed_app, Hp. simpl.
      by rewrite app_nil_r, <- app_assoc.
    + destruct (IH log1) as (log' & -> & Hp').
      exists log'. split; [reflexivity|].
      by rewrite Hp', Hp, <- app_assoc.
Qed.

(** *** The later revision *)

Lemma V2_files_cons file rest log :
  V2.files RPush ReadFile (file :: rest) log =
    match ParseFile file enqueueTest log with
    | (Done (Some e), log') =>
        (Done (Some ExitFailure),
         log' ++ [EvPrintf ("Error parsing file: %s" +:+ newline) e])
    | (Done None, log') =>
        if decide (file = "-") then (Done None, log')
        else V2.files RPush ReadFile rest log'
    | (Panic msg, log') => (Panic msg, log')
    end.
Proof.
  cbn [V2.files]. unfold Printf. monad_unfold.
  destruct (ParseFile file enqueueTest log) as [[[e|]|msg] log'];
    try reflexivity.
  case_decide; reflexivity.
Qed.



(** The files the loop hands to the parser are the first few of its
    arguments. *)
Lemma V2_files_prefix args log :
  exists r log' l,
    V2.files RPush ReadFile args log = (Done r, log') /\
    parsed log' = parsed log ++ l /\ l `prefix_of` args.
Proof.
  revert log. induction args as [|file rest IH]; intros log.
  - exists None, log, []. by rewrite app_nil_r.
  - rewrite V2_files_cons.
    destruct (ParseFile_log file log) as (r & log1 & -> & Hp).
    destruct r as [e|].
    + eexists _, _, [file]. split; [reflexivity|]. split.
      * by rewrite parsed_app, Hp, app_nil_r.
      * by apply prefix_cons, prefix_nil.
    + case_decide.
      * eexists _, _, [file]. split; [reflexivity|]. split; [done|].
        by apply prefix_cons, prefix_nil.
      * destruct (IH log1) as (r & log' & l & -> & Hp' & Hl).
        exists r, log', (file :: l). split; [reflexivity|]. split.
        -- by rewrite Hp', Hp, <- app_assoc.
        -- by apply prefix_cons.
Qed.

(** *** [Execute], run symbolically *)

Lemma V1_Execute_run p args log :
  V1.Execute Ping RPush ReadFile p args log =
    let log1 := log ++ [EvNewClient (V1_options p); EvPing] in
    match Ping (log ++ [EvNewClient (V1_options p)]) with
    | Some e => (Done ExitFailure, log1 ++ [EvPrintf ping_failed e])
    | None =>
        match V1.files RPush ReadFile args log1 with
        | (Done _, log') => (Done ExitSuccess, log')
        | (Panic msg, log') => (Panic msg, log')
        end
    end.
Proof.
  unfold V1.Execute, redis_NewClient, r_Ping, Printf, V1_options.
  monad_unfold. cbv zeta. rewrite <- !app_assoc. simpl.
  destruct (Ping _) as [e|]; [reflexivity|].
  destruct (V1.files _ _ _ _) as [[[]|msg] log']; reflexivity.
Qed.

Lemma V2_Execute_run p args log :
  V2.Execute Ping RPush ReadFile p args log =
    let log1 := log ++ [EvNewClient (V2_options p); EvPing] in
    match Ping (log ++ [EvNewClient (V2_options p)]) with
    | Some e => (Done ExitFailure, log1 ++ [EvPrintf ping_failed e])
    | None =>
        match V2.files RPush ReadFile args log1 with
        | (Done (Some status), log') => (Done status, log')
        | (Done None, log') => (Done ExitSuccess, log')
        | (Panic msg, log') => (Panic msg, log')
        end
    end.
Proof.
  unfold V2.Execute, redis_NewClient, r_Ping, Printf, V2_options.
  monad_unfold. cbv zeta.
  destruct (decide (V2.RedisSocket p = "")) as [Hs|Hs];
    rewrite <- !app_assoc; simpl;
    (destruct (Ping _) as [err|]; [reflexivity|]);
    destruct (V2.files _ _ _ _) as [[[status|]|msg] log']; reflexivity.
Qed.

Lemma parsed_ping log o :
  parsed (log ++ [EvNewClient o; EvPing]) = parsed log.
Proof. by rewrite parsed_app, app_nil_r. Qed.

(** Getting past [pre] leaves the rest of the arguments to be processed
    from the state reached, with exactly [pre] handed to the parser. *)
Lemma reaches_files pre rest log log1 :
  EnqueueRunSpec.reaches RPush ReadFile pre log log1 ->
  V2.files RPush ReadFile (pre ++ rest) log =
    V2.files RPush ReadFile rest log1 /\
  parsed log1 = parsed log ++ pre.
Proof.
  induction 1 as [log|file pre log log' log'' Hne Hp _ IH].
  - by rewrite app_nil_r.
  - cbn [app]. rewrite V2_files_cons, Hp.
    rewrite decide_False by assumption.
    destruct IH as [-> ->]. split; [reflexivity|].
    destruct (ParseFile_log file log) as (r & l & E & Hl).
    rewrite Hp in E. injection E as _ <-.
    by rewrite Hl, <- app_assoc.
Qed.

(** The loop returns a status only at a file that failed when the loop
    reached it. *)
Lemma V2_files_returned args log status logf :
  V2.files RPush ReadFile args log = (Done (Some status), logf) ->
  exists pre file post log1 log2 e,
    args = pre ++ file :: post /\
    EnqueueRunSpec.reaches RPush ReadFile pre log log1 /\
    ParseFile file enqueueTest log1 = (Done (Some e), log2) /\
    status = ExitFailure /\
    logf = log2 ++ [EvPrintf EnqueueRunSpec.parse_failed e].
Proof.
  revert log. induction args as [|file rest IH]; intros log.
  - discriminate.
  - rewrite V2_files_cons.
    destruct (ParseFile file enqueueTest log) as [[[e|]|msg] log'] eqn:Hp.
    + intros [= <- <-]. exists [], file, rest, log, log', e.
      repeat split; [apply EnqueueRunSpec.reaches_nil | exact Hp].
    + case_decide as Hstd; [discriminate|]. intros H.
      destruct (IH _ H) as (pre & f & post & log1 & log2 & e & -> & Hr & Hf & Hs & Hl).
      exists (file :: pre), f, post, log1, log2, e.
      repeat split; try assumption.
      by apply (EnqueueRunSpec.reaches_cons RPush ReadFile file pre log log').
    + discriminate.
Qed.

(** C3, as amended.  In the earlier revision a failure while parsing
    or pushing one file is file-scoped: every file argument is handed
    to the parser, in order, whatever happened to the others, and the
    exit status is success.  In the later revision the first file that
    fails when the loop reaches it ends the command: the error is
    printed, the exit status is failure, and no file argument after it
    is processed; the loop reaches a file when every file before it was
    processed without error, in the state the run was in at its turn,
    and none of them was ["-"].  The later revision exits with failure
    after a successful ping in no other way.  In both revisions a failed
    ping is fatal: the command prints the error and exits with the
    failure status before any file is read. *)
Theorem C3_file_failure_scope p1 p2 args pre file post log :
  match Ping (log ++ [EvNewClient (V1_options p1)]) with
  | Some e =>
      V1.Execute Ping RPush ReadFile p1 args log =
        (Done ExitFailure,
         log ++ [EvNewClient (V1_options p1); EvPing;
                 EvPrintf ping_failed e])
  | None =>
      fst (V1.Execute Ping RPush ReadFile p1 args log) = Done ExitSuccess /\
      parsed (snd (V1.Execute Ping RPush ReadFile p1 args log)) =
        parsed log ++ args
  end /\
  match Ping (log ++ [EvNewClient (V2_options p2)]) with
  | Some e =>
      V2.Execute Ping RPush ReadFile p2 args log =
        (Done ExitFailure,
         log ++ [EvNewClient (V2_options p2); EvPing;
                 EvPrintf ping_failed e])
  | None =>
      let log0 := log ++ [EvNewClient (V2_options p2); EvPing] in
      (forall log1 log2 e,
         EnqueueRunSpec.reaches RPush ReadFile pre log0 log1 ->
         ParseFile file enqueueTest log1 = (Done (Some e), log2) ->
         V2.Execute Ping RPush ReadFile p2 (pre ++ file :: post) log =
           (Done ExitFailure,
            log2 ++ [EvPrintf EnqueueRunSpec.parse_failed e]) /\
         parsed (log2 ++ [EvPrintf EnqueueRunSpec.parse_failed e]) =
           parsed log ++ pre ++ [file]) /\
      (fst (V2.Execute Ping RPush ReadFile p2 args log) = Done ExitFailure ->
       exists pre' file' post' log1 log2 e,
         args = pre' ++ file' :: post' /\
         EnqueueRunSpec.reaches RPush ReadFile pre' log0 log1 /\
         ParseFile file' enqueueTest log1 = (Done (Some e), log2) /\
         snd (V2.Execute Ping RPush ReadFile p2 args log) =
           log2 ++ [EvPrintf EnqueueRunSpec.parse_failed e])
  end.
Proof.
  split.
  - rewrite V1_Execute_run. cbv zeta.
    destruct (Ping _) as [e|]; [by rewrite <- app_assoc|].
    destruct (V1_files_all args
                (log ++ [EvNewClient (V1_options p1); EvPing]))
      as (log' & -> & Hp).
    by rewrite parsed_ping in Hp.
  - rewrite !V2_Execute_run. cbv zeta.
    destruct (Ping _) as [e|]; [by rewrite <- app_assoc|].
    split.
    + intros log1 log2 e Hr Hf.
      destruct (reaches_files pre (file :: post) _ _ Hr) as [-> Hp].
      rewrite parsed_ping in Hp.
      rewrite V2_files_cons, Hf. split; [reflexivity|].
      destruct (ParseFile_log file log1) as (r & l & E & Hl).
      rewrite Hf in E. injection E as _ <-.
      by rewrite parsed_app, Hl, Hp, app_nil_r, <- app_assoc.
    + destruct (V2.files RPush ReadFile args _) as [[[status|]|msg] logf]
        eqn:Hfiles; cbn [fst snd]; try discriminate.
      intros _.
      destruct (V2_files_returned _ _ _ _ Hfiles)
        as (pre' & f & post' & log1 & log2 & e & -> & Hr & Hf & _ & ->).
      eauto 10.
Qed.


End Cmd.

(** C3 as it was written fails in the later revision: the first file
    cannot be read, the command exits with the failure status, and the
    second file, which alone would have put two jobs on the queue, is
    neither read nor enqueued. *)
Lemma C3_later_revision_stops_at_failure :
  let Execute := V2.Execute Sample.Ping Sample.RPush Sample.ReadFile
                   Sample.cmd2 in
  let run := Execute ["missing.conf"; "good.conf"] [] in
  fst run = Done ExitFailure /\
  parsed (snd run) = ["missing.conf"] /\
  pushed (snd run) = [] /\
  fst (Execute ["good.conf"] []) = Done ExitSuccess /\
  pushed (snd (Execute ["good.conf"] [])) =
    ["mail.example.com must run imaps"; "www.example.com must run http"].
Proof. vm_compute. repeat split; reflexivity. Qed.

End EnqueueFacts.

(** ** The connection address of both probes *)

(** C8: both probes form the connection address by the one test for a
    colon in [target]: with a colon the address is the target in brackets,
    a colon and the port; without, the bare target, a colon and the port.
    The DNS probe, whenever it sends its query (the test has a [lookup]
    and a supported [type]), sends it to that address with port 53, and
    makes no exchange otherwise.  The IMAPS probe, whenever it gets to
    dial (the port is absent or parses, the input line has a field),
    dials that address with the resolved port, 993 unless the [port]
    argument gives another, and makes no call otherwise. *)
Theorem C8_connection_address
    (Fqdn : string -> string) (IPString : DNS.IP -> string)
    (NewId : list DNS.Event -> Z)
    (Exchange : list DNS.Event -> DNS.Client -> DNS.Msg -> string ->
                option DNS.Msg * option error)
    (DialWithDialerTLS : list IMAPS.Event -> IMAPS.Dialer -> string ->
                         IMAPS.TLSConfig -> option error)
    (Login : list IMAPS.Event -> string -> string -> option error)
    (Logout : list IMAPS.Event -> option error)
    (tst : test.Test) (target : string) (opts : test.Options)
    (st : DNS.State) (log : list IMAPS.Event) :
  let dns := DNS.RunTest Fqdn IPString NewId Exchange tst target opts st in
  let imaps := IMAPS.RunTest DialWithDialerTLS Login Logout tst target opts log in
  let port :=
    if decide (test.arg tst "port" = "") then 993
    else fst (Strconv.Atoi (test.arg tst "port")) in
  let port_error :=
    if decide (test.arg tst "port" = "") then None
    else snd (Strconv.Atoi (test.arg tst "port")) in
  let address (port : Z) :=
    if decide (":"%char ∈ list_ascii_of_string target)
    then "[" +:+ target +:+ "]:" +:+ Fmt.d port
    else target +:+ ":" +:+ Fmt.d port in
  DNS.log (snd dns) =
    (if decide (test.arg tst "lookup" <> "" /\
                test.arg tst "type" ∈ DNSSpec.supported)
     then DNS.log st ++
          [DNS.EvExchange {| DNS.ReadTimeout := test.Timeout opts |}
             (DNSSpec.query (NewId (DNS.log st))
                (Fqdn (test.arg tst "lookup")) (test.arg tst "type"))
             (address 53)]
     else DNS.log st) /\
  match port_error, head (strings_Fields (test.Input tst)) with
  | None, Some name =>
      exists tail,
        snd imaps =
          log ++ IMAPS.EvDial
                   {| IMAPS.Dialer_Timeout := test.Timeout opts |}
                   (address port) (IMAPSSpec.tls_config tst name) :: tail
  | _, _ => snd imaps = log
  end /\
  Fmt.d 53 = "53" /\ Fmt.d 993 = "993".
Proof.
  intros dns imaps port port_error address.
  assert (forall n, address n = hostport target n) as Haddr.
  { intros n. unfold address, hostport.
    destruct (Strings.Contains target ":") eqn:E.
    - apply Contains_colon in E. rewrite decide_True; [reflexivity|].
      by apply list_elem_of_In.
    - rewrite decide_False; [reflexivity|].
      rewrite list_elem_of_In, <- Contains_colon. congruence. }
  split; [|split; [|split]]; try reflexivity.
  - unfold dns. rewrite Haddr. case_decide as Hd.
    + destruct Hd as [H1 Hs].
      assert (test.arg tst "type" <> "") as H2
        by (intros E; rewrite E in Hs; exact (DNSFacts.empty_not_supported Hs)).
      rewrite DNSFacts.RunTest_checked, DNSFacts.lookup_supported
        by assumption.
      destruct (DNSSpec.outcome _ _ _ _) as [[res [e|]]|msg]; reflexivity.
    + destruct (decide (test.arg tst "lookup" = "" \/ test.arg tst "type" = ""))
        as [Hr|Hr].
      * by rewrite DNSFacts.RunTest_rejected.
      * assert (test.arg tst "lookup" <> "" /\ test.arg tst "type" <> "")
          as [H1 H2] by (split; intros E; apply Hr; auto).
        rewrite DNSFacts.RunTest_checked, DNSFacts.lookup_unsupported
          by tauto. reflexivity.
  - unfold imaps. rewrite IMAPSFacts.RunTest_run.
    unfold IMAPSSpec.resolved_port, port_error, port.
    destruct (decide (test.arg tst "port" = "")) as [Hp|Hp].
    + destruct (strings_Fields (test.Input tst)) as [|name rest];
        [reflexivity|].
      cbv zeta. cbn [head]. rewrite Haddr. unfold IMAPSSpec.dial_event.
      destruct (DialWithDialerTLS _ _ _ _); simpl; eauto.
    + destruct (Strconv.Atoi (test.arg tst "port")) as [n [e|]];
        [reflexivity|]. cbn [fst snd].
      destruct (strings_Fields (test.Input tst)) as [|name rest];
        [reflexivity|].
      cbv zeta. cbn [head]. rewrite Haddr. unfold IMAPSSpec.dial_event.
      destruct (DialWithDialerTLS _ _ _ _); simpl; eauto.
Qed.

Example C8_addresses :
  DNS.log (snd (DNS.RunTest Sample.Fqdn Sample.IPString Sample.NewId
             (Sample.Exchange 0 []) (Sample.dns_test "example.com" "AAAA" "")
             "2001:db8::53" Sample.opts Sample.st0)) =
    [DNS.EvExchange (DNSSpec.fresh_client 5000000000)
       (DNSSpec.query 4242 "example.com." "AAAA") "[2001:db8::53]:53"] /\
  DNS.log (snd (DNS.RunTest Sample.Fqdn Sample.IPString Sample.NewId
             (Sample.Exchange 0 []) (Sample.dns_test "example.com" "AAAA" "")
             "ns.example.net" Sample.opts Sample.st0)) =
    [DNS.EvExchange (DNSSpec.fresh_client 5000000000)
       (DNSSpec.query 4242 "example.com." "AAAA") "ns.example.net:53"] /\
  snd (IMAPS.RunTest Sample.Dial (Sample.Login "u" "p") Sample.Logout
         (Sample.imaps_test "mail.example.com must run imaps" [])
         "192.0.2.25" Sample.opts []) =
    [IMAPS.EvDial {| IMAPS.Dialer_Timeout := 5000000000 |} "192.0.2.25:993"
       {| IMAPS.ServerName := "mail.example.com";
          IMAPS.InsecureSkipVerify := false |};
     IMAPS.EvClose] /\
  snd (IMAPS.RunTest Sample.Dial (Sample.Login "u" "p") Sample.Logout
         (Sample.imaps_test "mail.example.com must run imaps with port 143"
            [("port", "143")])
         "2001:db8::25" Sample.opts []) =
    [IMAPS.EvDial {| IMAPS.Dialer_Timeout := 5000000000 |} "[2001:db8::25]:143"
       {| IMAPS.ServerName := "mail.example.com";
          IMAPS.InsecureSkipVerify := false |};
     IMAPS.EvClose].
Proof. vm_compute. repeat split; reflexivity. Qed.

(** ** The theorems at work on the sample world *)

(** C4 as it was written fails for the answer list holding one empty
    string: a TXT record whose only chunk is empty gives the result list
    [[""]], which joins to the empty string and so matches an empty
    [result] although an answer came back. *)
Lemma C4_empty_result_matches_empty_text :
  let tst := Sample.dns_test "www.example.com" "TXT" "" in
  let Exchange := Sample.Exchange DNS.RcodeSuccess [DNS.TXT [""]] in
  test.arg tst "result" = "" /\
  fst (DNS.lookup Sample.Fqdn Sample.IPString Sample.NewId Exchange
         "192.0.2.53" "www.example.com" "TXT" 5000000000 Sample.st0)
    = Done ([""], None) /\
  fst (DNS.RunTest Sample.Fqdn Sample.IPString Sample.NewId Exchange
         tst "192.0.2.53" Sample.opts Sample.st0) = Done None.
Proof. vm_compute. repeat split; reflexivity. Qed.

(** A server failure (response code 2) with an empty expected result: the
    third way of C2. *)
Lemma C2_witness :
  fst (DNS.RunTest Sample.Fqdn Sample.IPString Sample.NewId
         (Sample.Exchange 2 [DNS.A "192.0.2.7"])
         (Sample.dns_test "www.example.com" "A" "")
         "192.0.2.53" Sample.opts Sample.st0) = Done None.
Proof.
  edestruct (DNSFacts.C2_response_code_tristate Sample.Fqdn Sample.IPString
               Sample.NewId (Sample.Exchange 2 [DNS.A "192.0.2.7"])
               (Sample.dns_test "www.example.com" "A" "")
               "192.0.2.53" Sample.opts Sample.st0) as (_ & _ & H).
  - vm_compute. discriminate.
  - apply (bool_decide_unpack _). vm_compute. exact I.
  - vm_compute. reflexivity.
  - exact H.
Defined.

(** Two address records, answered in the order b, a. *)
Lemma C4_witness :
  fst (DNS.RunTest Sample.Fqdn Sample.IPString Sample.NewId
         (Sample.Exchange DNS.RcodeSuccess [DNS.A "b"; DNS.A "a"])
         (Sample.dns_test "www.example.com" "A" "a,b")
         "192.0.2.53" Sample.opts Sample.st0) = Done None.
Proof.
  edestruct (DNSFacts.C4_sorted_join_comparison Sample.Fqdn Sample.IPString
               Sample.NewId
               (Sample.Exchange DNS.RcodeSuccess [DNS.A "b"; DNS.A "a"])
               (Sample.dns_test "www.example.com" "A" "a,b")
               "192.0.2.53" Sample.opts Sample.st0) as (H & _).
  - vm_compute. discriminate.
  - vm_compute. discriminate.
  - vm_compute. reflexivity.
  - rewrite H. vm_compute. reflexivity.
Defined.

(** An unsupported record type is refused with no query sent; an empty
    expected result with no answers passes. *)
Lemma C5_witness :
  (let run := DNS.RunTest Sample.Fqdn Sample.IPString Sample.NewId
                (Sample.Exchange DNS.RcodeSuccess [])
                (Sample.dns_test "www.example.com" "SRV" "")
                "192.0.2.53" Sample.opts Sample.st0 in
   fst run = Done (Some (errorString "unsupported record to lookup 'SRV'")) /\
   DNS.log (snd run) = []) /\
  fst (DNS.RunTest Sample.Fqdn Sample.IPString Sample.NewId
         (Sample.Exchange DNS.RcodeSuccess [])
         (Sample.dns_test "www.example.com" "AAAA" "")
         "192.0.2.53" Sample.opts Sample.st0) = Done None.
Proof.
  split.
  - apply (proj1 (DNSFacts.C5_argument_errors_before_network Sample.Fqdn
                    Sample.IPString Sample.NewId
                    (Sample.Exchange DNS.RcodeSuccess [])
                    (Sample.dns_test "www.example.com" "SRV" "")
                    "192.0.2.53" Sample.opts Sample.st0)).
    right. right. apply (bool_decide_unpack _). vm_compute. exact I.
  - apply (proj2 (DNSFacts.C5_argument_errors_before_network Sample.Fqdn
                    Sample.IPString Sample.NewId
                    (Sample.Exchange DNS.RcodeSuccess [])
                    (Sample.dns_test "www.example.com" "AAAA" "")
                    "192.0.2.53" Sample.opts Sample.st0)).
    + vm_compute. discriminate.
    + apply (bool_decide_unpack _). vm_compute. exact I.
    + vm_compute. reflexivity.
    + vm_compute. reflexivity.
Defined.

(** A login with the right password, then the logout and the close. *)
Lemma C6_witness :
  IMAPS.RunTest Sample.Dial (Sample.Login "steve" "secret") Sample.Logout
    (Sample.imaps_test "mail.example.com must run imaps"
       [("username", "steve"); ("password", "secret")])
    "192.0.2.25" Sample.opts [] =
  (Done None,
   [IMAPS.EvDial {| IMAPS.Dialer_Timeout := 5000000000 |} "192.0.2.25:993"
      {| IMAPS.ServerName := "mail.example.com";
         IMAPS.InsecureSkipVerify := false |};
    IMAPS.EvLogin "steve" "secret"; IMAPS.EvLogout; IMAPS.EvClose]).
Proof.
  rewrite (IMAPSFacts.C6_login_iff_both_credentials Sample.Dial
             (Sample.Login "steve" "secret") Sample.Logout
             (Sample.imaps_test "mail.example.com must run imaps"
                [("username", "steve"); ("password", "secret")])
             "192.0.2.25" Sample.opts [] 993 "mail.example.com"
             ["must"; "run"; "imaps"]).
  - vm_compute. reflexivity.
  - vm_compute. reflexivity.
  - vm_compute. reflexivity.
  - reflexivity.
Defined.

(** The certificate is checked against the name in the input line, not
    against the address the target was resolved to. *)
Lemma C7_witness :
  let tst := Sample.imaps_test "mail.example.com must run imaps" [] in
  let cfg := {| IMAPS.ServerName := "mail.example.com";
                IMAPS.InsecureSkipVerify := false |} in
  IMAPS.InsecureSkipVerify cfg = false /\
  head (strings_Fields (test.Input tst)) = Some (IMAPS.ServerName cfg).
Proof.
  intros tst cfg.
  apply (IMAPSFacts.C7_server_name_from_input Sample.Dial
           (Sample.Login "u" "p") Sample.Logout tst "192.0.2.25" Sample.opts []
           [IMAPS.EvDial {| IMAPS.Dialer_Timeout := 5000000000 |}
              "192.0.2.25:993" cfg; IMAPS.EvClose]
           {| IMAPS.Dialer_Timeout := 5000000000 |} "192.0.2.25:993" cfg).
  - vm_compute. reflexivity.
  - apply list_elem_of_here.
Defined.

(** A blank input line panics, with [tls insecure] too. *)
Lemma C9_witness :
  IMAPS.RunTest Sample.Dial (Sample.Login "u" "p") Sample.Logout
    (Sample.imaps_test "   " [("tls", "insecure")])
    "192.0.2.25" Sample.opts [] =
  (Panic "runtime error: index out of range [0] with length 0", []).
Proof.
  apply (IMAPSFacts.C9_blank_input_panics Sample.Dial (Sample.Login "u" "p")
           Sample.Logout (Sample.imaps_test "   " [("tls", "insecure")])
           "192.0.2.25" Sample.opts []).
  - apply (bool_decide_unpack _). vm_compute. exact I.
  - vm_compute. reflexivity.
Defined.

Lemma Sample_good_ok :
  EnqueueSpec.file_ok Sample.RPush Sample.ReadFile "good.conf".
Proof. intros log. reflexivity. Defined.


Lemma Sample_missing_fails :
  EnqueueSpec.file_fails Sample.RPush Sample.ReadFile "missing.conf".
Proof. intros log. eexists. reflexivity. Defined.

(** The queue takes two jobs and then refuses: [good.conf] goes through
    the first time and fails the second time, at its first push; the
    later revision gives up there, and standard input, listed after it,
    is not reached. *)
Lemma C3_witness :
  let run := Enqueue.V2.Execute Sample.Ping EnqueueRunSpec.RPush_two
               Sample.ReadFile Sample.cmd2
               (["good.conf"] ++ "good.conf" :: ["-"]) [] in
  fst run = Done Enqueue.ExitFailure /\
  EnqueueSpec.parsed (snd run) = ["good.conf"; "good.conf"].
Proof.
  edestruct (proj1 (proj2 (EnqueueFacts.C3_file_failure_scope Sample.Ping
                             EnqueueRunSpec.RPush_two Sample.ReadFile
                             Sample.cmd1 Sample.cmd2 []
                             ["good.conf"] "good.conf" ["-"] [])))
    as [Hrun Hparsed].
  - eapply EnqueueRunSpec.reaches_cons;
      [discriminate | vm_compute; reflexivity
      | apply EnqueueRunSpec.reaches_nil].
  - vm_compute. reflexivity.
  - cbv zeta. rewrite Hrun. cbn [fst snd].
    split; [reflexivity | exact Hparsed].
Defined.


(** One test line run through both probes against an IPv6 target: the
    query goes to the bracketed address with port 53, the dial to the
    bracketed address with port 993. *)
Lemma C8_witness :
  let tst := Sample.dns_test "example.com" "AAAA" "" in
  DNS.log (snd (DNS.RunTest Sample.Fqdn Sample.IPString Sample.NewId
                  (Sample.Exchange DNS.RcodeSuccess [])
                  tst "2001:db8::53" Sample.opts Sample.st0)) =
    [DNS.EvExchange {| DNS.ReadTimeout := 5000000000 |}
       (DNSSpec.query 4242 "example.com." "AAAA") "[2001:db8::53]:53"] /\
  exists tail,
    snd (IMAPS.RunTest Sample.Dial (Sample.Login "u" "p") Sample.Logout
           tst "2001:db8::53" Sample.opts []) =
      IMAPS.EvDial {| IMAPS.Dialer_Timeout := 5000000000 |}
        "[2001:db8::53]:993"
        {| IMAPS.ServerName := "ns.example.com";
           IMAPS.InsecureSkipVerify := false |} :: tail.
Proof.
  intros tst.
  destruct (C8_connection_address Sample.Fqdn Sample.IPString Sample.NewId
              (Sample.Exchange DNS.RcodeSuccess [])
              Sample.Dial (Sample.Login "u" "p") Sample.Logout
              tst "2001:db8::53" Sample.opts Sample.st0 [])
    as (Hdns & Himaps & _).
  split; [exact Hdns | exact Himaps].
Defined.

(** * Further properties *)

(** ** The DNS probe: extraction, errors, verdicts *)
Module DNSMore.
Import test DNS DNSSpec DNSAnswers.

Lemma StringToType_qtype_of (lookupType : string) :
  default 0 (StringToType !! lookupType) = qtype_of lookupType.
Proof.
  unfold StringToType, qtype_of. simpl list_to_map.
  destruct (decide (lookupType = "A")) as [->|?]; [reflexivity|].
  destruct (decide (lookupType = "NS")) as [->|?]; [reflexivity|].
  destruct (decide (lookupType = "MX")) as [->|?]; [reflexivity|].
  destruct (decide (lookupType = "TXT")) as [->|?]; [reflexivity|].
  destruct (decide (lookupType = "AAAA")) as [->|?]; [reflexivity|].
  rewrite !lookup_insert_ne by congruence. by rewrite lookup_empty.
Qed.

Section Probe.
Variable Fqdn : string -> string.
Variable IPString : IP -> string.
Variable NewId : list Event -> Z.
Variable Exchange :
  list Event -> Client -> Msg -> string -> option Msg * option error.

Abbreviation lookup := (lookup Fqdn IPString NewId Exchange).
Abbreviation RunTest := (RunTest Fqdn IPString NewId Exchange).
Abbreviation sent := (sent Fqdn NewId).
Abbreviation answer := (answer Fqdn NewId Exchange).
Abbreviation canonical := (canonical IPString).

(** X1: the loop of [lookup] over the answer records.  It panics exactly
    when some TXT record has no text chunk; otherwise it appends, in
    answer order, the address of each A and AAAA record, preference and
    exchange of each MX record, the name of each NS record and the first
    chunk of each TXT record, and passes over every other record. *)
Theorem answers_canonical (rrs : list RR) (results : list string) :
  answers IPString rrs results =
    if existsb empty_txt rrs
    then Panic "runtime error: index out of range [0] with length 0"
    else Done (results ++ omap canonical rrs).
Proof.
  revert results. induction rrs as [|rr rrs IH]; intros results.
  - simpl. by rewrite app_nil_r.
  - destruct rr as [ip|ip|p n|n|[|t ts]|c]; cbn [answers existsb empty_txt orb];
      try reflexivity; rewrite IH; destruct (existsb empty_txt rrs);
      try reflexivity; cbn [omap list_omap canonical DNSAnswers.canonical];
      by rewrite <- app_assoc.
Qed.


(** [RunTest] on a test that passes the argument checks and names a
    supported type. *)
Lemma RunTest_valid tst target opts st :
  arg tst "lookup" <> "" -> arg tst "type" ∈ supported ->
  RunTest tst target opts st =
    (match outcome Fqdn IPString (arg tst "lookup")
             (answer target (arg tst "lookup") (arg tst "type")
                     (Timeout opts) st) with
     | Done (_, Some e) => Done (Some e)
     | Done (res, None) => Done (compare res (arg tst "result"))
     | Panic msg => Panic msg
     end,
     sent target (arg tst "lookup") (arg tst "type") (Timeout opts) st).
Proof.
  intros H1 Hs.
  assert (arg tst "type" <> "") as H2
    by (intros E; rewrite E in Hs; exact (DNSFacts.empty_not_supported Hs)).
  rewrite DNSFacts.RunTest_checked, DNSFacts.lookup_supported by assumption.
  destruct (outcome _ _ _ _) as [[res [e|]]|msg]; reflexivity.
Qed.

Lemma RunTest_invalid tst target opts st :
  ~ (arg tst "lookup" <> "" /\ arg tst "type" ∈ supported) ->
  exists e, fst (RunTest tst target opts st) = Done (Some e).
Proof.
  intros Hn.
  destruct (decide (arg tst "lookup" = "" \/ arg tst "type" = "")) as [Hd|Hd].
  - rewrite DNSFacts.RunTest_rejected by assumption. eauto.
  - assert (arg tst "lookup" <> "" /\ arg tst "type" <> "") as [H1 H2]
      by (split; intros E; apply Hd; auto).
    rewrite DNSFacts.RunTest_checked, DNSFacts.lookup_unsupported
      by tauto. eauto.
Qed.

Lemma compare_None res result :
  compare res result = None <-> normalize res = result.
Proof. unfold compare. case_decide; split; intros; congruence. Qed.

(** X2: [RunTest] panics in one situation only: the test is well formed,
    the exchange returned a response with the success code and no
    transport error, and that response holds a TXT record with no text
    chunk; the panic is the index error of [txt[0]].  In particular it
    never dereferences a nil [localm] or [localc], whatever the two
    package-level variables held before the call. *)
Theorem DNS_RunTest_panics_iff tst target opts st msg :
  fst (RunTest tst target opts st) = Panic msg <->
  msg = "runtime error: index out of range [0] with length 0" /\
  arg tst "lookup" <> "" /\ arg tst "type" ∈ supported /\
  exists r,
    answer target (arg tst "lookup") (arg tst "type") (Timeout opts) st
      = (Some r, None) /\
    Rcode r = RcodeSuccess /\ existsb empty_txt (Answer r) = true.
Proof.
  destruct (decide (arg tst "lookup" <> "" /\ arg tst "type" ∈ supported))
    as [[H1 Hs]|Hn].
  2: { destruct (RunTest_invalid tst target opts st Hn) as [e He].
       rewrite He. split; [discriminate | tauto]. }
  rewrite RunTest_valid by assumption. cbn [fst]. unfold outcome.
  destruct (answer _ _ _ _ st) as [[r|] [e|]].
  1,3,4: split; [discriminate | intros (_ & _ & _ & r' & E & _); discriminate].
  destruct (Z.eqb_spec (Rcode r) RcodeNameError) as [En|En].
  { split; [discriminate|]. intros (_ & _ & _ & r' & [= <-] & E & _).
    rewrite E in En. discriminate. }
  destruct (Z.eqb_spec (Rcode r) RcodeSuccess) as [Es|Es].
  2: { split; [discriminate|]. intros (_ & _ & _ & r' & [= <-] & E & _).
       contradiction. }
  rewrite answers_canonical.
  destruct (existsb empty_txt (Answer r)) eqn:Ee.
  - split.
    + intros [= <-]. eauto 10.
    + intros (-> & _). reflexivity.
  - split; [discriminate|].
    intros (_ & _ & _ & r' & [= <-] & _ & E). congruence.
Qed.

(** X3: a transport error of the exchange is the error [RunTest] returns,
    unchanged, whether or not a response came with it; the one query has
    been sent and nothing is compared. *)
Theorem RunTest_transport_error tst target opts st r e :
  arg tst "lookup" <> "" -> arg tst "type" ∈ supported ->
  answer target (arg tst "lookup") (arg tst "type") (Timeout opts) st
    = (r, Some e) ->
  RunTest tst target opts st =
    (Done (Some e),
     sent target (arg tst "lookup") (arg tst "type") (Timeout opts) st).
Proof.
  intros H1 Hs Ha. rewrite RunTest_valid, Ha by assumption.
  by destruct r.
Qed.

(** X4: when a DNS test passes.  [RunTest] returns nil exactly when the
    test is well formed, the exchange gave no transport error, and either
    the response has the success code, every TXT record in it has a
    chunk, and the sorted, comma-joined strings of its records equal
    [result]; or [result] is empty and the response is nil or has a code
    that is neither success nor name error. *)
Theorem RunTest_passes_iff tst target opts st :
  fst (RunTest tst target opts st) = Done None <->
  arg tst "lookup" <> "" /\ arg tst "type" ∈ supported /\
  let a := answer target (arg tst "lookup") (arg tst "type")
                  (Timeout opts) st in
  ((exists r, a = (Some r, None) /\ Rcode r = RcodeSuccess /\
              existsb empty_txt (Answer r) = false /\
              Strings.Join (Sort.Strings (omap canonical (Answer r))) ","
                = arg tst "result") \/
   (arg tst "result" = "" /\
    (a = (None, None) \/
     exists r, a = (Some r, None) /\ Rcode r <> RcodeSuccess /\
               Rcode r <> RcodeNameError))).
Proof.
  destruct (decide (arg tst "lookup" <> "" /\ arg tst "type" ∈ supported))
    as [[H1 Hs]|Hn].
  2: { destruct (RunTest_invalid tst target opts st Hn) as [e He].
       rewrite He. split; [discriminate | tauto]. }
  rewrite RunTest_valid by assumption. cbn [fst]. cbv zeta. unfold outcome.
  destruct (answer _ _ _ _ st) as [[r|] [e|]].
  - split; [discriminate|].
    intros (_ & _ & [(r' & E & _)|(_ & [E|(r' & E & _)])]); discriminate.
  - destruct (Z.eqb_spec (Rcode r) RcodeNameError) as [En|En].
    { split; [discriminate|].
      intros (_ & _ & [(r' & [= <-] & E & _)|(_ & [E|(r' & [= <-] & _ & E)])]);
        try discriminate; try contradiction.
      rewrite E in En. discriminate. }
    destruct (Z.eqb_spec (Rcode r) RcodeSuccess) as [Es|Es].
    + rewrite answers_canonical.
      destruct (existsb empty_txt (Answer r)) eqn:Ee.
      * split; [discriminate|].
        intros (_ & _ & [(r' & [= <-] & _ & E & _)|(_ & [E|(r' & [= <-] & E & _)])]);
          try discriminate; try contradiction. congruence.
      * simpl app. split.
        -- intros [= E]. apply compare_None in E. split; [done|].
           split; [done|]. left. exists r. eauto.
        -- intros (_ & _ & [(r' & [= <-] & _ & _ & E)|(_ & [E|(r' & [= <-] & E & _)])]);
             try discriminate; try contradiction.
           f_equal. by apply compare_None.
    + split.
      * intros [= E]. apply compare_None in E. split; [done|].
        split; [done|]. right. split; [by rewrite <- E|]. right. eauto.
      * intros (_ & _ & [(r' & [= <-] & E & _)|(Hr & _)]); [contradiction|].
        f_equal. apply compare_None. by rewrite Hr.
  - split; [discriminate|].
    intros (_ & _ & [(r' & E & _)|(_ & [E|(r' & E & _)])]); discriminate.
  - split.
    + intros [= E]. apply compare_None in E. split; [done|].
      split; [done|]. right. split; [by rewrite <- E | by left].
    + intros (_ & _ & [(r' & E & _)|(Hr & _)]); [discriminate|].
      f_equal. apply compare_None. by rewrite Hr.
Qed.


(** X5: a well-formed test makes exactly one exchange, with the server at
    [target], port 53.  The client's read timeout is the caller's
    timeout; the message asks for recursion, carries the id the library
    drew, and has one question: the fully-qualified [lookup] name, the
    type code of the [type] token (A 1, NS 2, MX 15, TXT 16, AAAA 28),
    class IN. *)
Theorem RunTest_query tst target opts st :
  arg tst "lookup" <> "" -> arg tst "type" ∈ supported ->
  exists m,
    log (snd (RunTest tst target opts st)) =
      log st ++ [EvExchange {| ReadTimeout := Timeout opts |} m
                   (hostport target 53)] /\
    Id m = NewId (log st) /\
    RecursionDesired m = true /\
    Question_ m = [ {| Name := Fqdn (arg tst "lookup");
                       Qtype := qtype_of (arg tst "type");
                       Qclass := 1 |} ] /\
    qtype_of (arg tst "type") ∈ [1; 2; 15; 16; 28].
Proof.
  intros H1 Hs. rewrite RunTest_valid by assumption. cbn [snd].
  eexists. split; [reflexivity|]. unfold query, SetQuestion. cbn.
  rewrite StringToType_qtype_of. repeat split.
  unfold supported in Hs. rewrite !elem_of_cons, elem_of_nil in Hs.
  destruct Hs as [->|[->|[->|[->|[->|[]]]]]]; cbn;
    rewrite !elem_of_cons; auto 10.
Qed.

(** The verdict of a well-formed test depends on the response only
    through its code, on whether it holds a TXT record without a chunk,
    and on the sorted, comma-joined strings of its records. *)
Lemma RunTest_same_verdict Exchange' tst target opts st r r' :
  answer target (arg tst "lookup") (arg tst "type") (Timeout opts) st
    = (Some r, None) ->
  DNSSpec.answer Fqdn NewId Exchange' target (arg tst "lookup")
    (arg tst "type") (Timeout opts) st = (Some r', None) ->
  Rcode r = Rcode r' ->
  existsb empty_txt (Answer r) = existsb empty_txt (Answer r') ->
  normalize (omap canonical (Answer r)) =
    normalize (omap canonical (Answer r')) ->
  fst (RunTest tst target opts st) =
  fst (DNS.RunTest Fqdn IPString NewId Exchange' tst target opts st).
Proof.
  intros Ha Ha' Hc He Hn.
  destruct (decide (arg tst "lookup" = "" \/ arg tst "type" = "")) as [Hd|Hd].
  { by rewrite !DNSFacts.RunTest_rejected. }
  assert (arg tst "lookup" <> "" /\ arg tst "type" <> "") as [H1 H2]
    by (split; intros E; apply Hd; auto).
  destruct (decide (arg tst "type" ∈ supported)) as [Hs|Hs].
  2: { by rewrite !DNSFacts.RunTest_checked, !DNSFacts.lookup_unsupported. }
  rewrite !DNSFacts.RunTest_checked, !DNSFacts.lookup_supported
    by assumption.
  rewrite Ha, Ha'. unfold outcome. rewrite <- Hc.
  destruct (Rcode r =? RcodeNameError); [reflexivity|].
  destruct (Rcode r =? RcodeSuccess); [|reflexivity].
  rewrite !answers_canonical, <- He.
  destruct (existsb empty_txt (Answer r)); [reflexivity|].
  cbn. unfold compare. by rewrite Hn.
Qed.

(** X6: the verdict cannot tell one answer holding a comma from two
    answers: a response with the two TXT records [a] and [b], [a] not
    after [b] in byte order, gets the verdict of a response with the one
    TXT record [a,b]. *)
Theorem RunTest_comma_ambiguity Exchange' tst target opts st r r' a b :
  answer target (arg tst "lookup") (arg tst "type") (Timeout opts) st
    = (Some r, None) ->
  DNSSpec.answer Fqdn NewId Exchange' target (arg tst "lookup")
    (arg tst "type") (Timeout opts) st = (Some r', None) ->
  Rcode r = Rcode r' ->
  String.le a b ->
  Answer r = [TXT [a]; TXT [b]] ->
  Answer r' = [TXT [a +:+ "," +:+ b]] ->
  fst (RunTest tst target opts st) =
  fst (DNS.RunTest Fqdn IPString NewId Exchange' tst target opts st).
Proof.
  intros Ha Ha' Hc Hle E E'.
  apply (RunTest_same_verdict Exchange' tst target opts st r r');
    try assumption; rewrite E, E'; [reflexivity|].
  unfold normalize.
  change (omap canonical [TXT [a]; TXT [b]]) with [a; b].
  change (omap canonical [TXT [a +:+ "," +:+ b]]) with [a +:+ "," +:+ b].
  rewrite <- (Strings_unique [a; b] [a; b]); [reflexivity | reflexivity |].
  repeat constructor. exact Hle.
Qed.

(** X7: the order in which the server lists its answer records does not
    matter: two responses with the same code whose answer sections are
    permutations of each other get the same verdict, panic included. *)
Theorem RunTest_answer_order Exchange' tst target opts st r r' :
  answer target (arg tst "lookup") (arg tst "type") (Timeout opts) st
    = (Some r, None) ->
  DNSSpec.answer Fqdn NewId Exchange' target (arg tst "lookup")
    (arg tst "type") (Timeout opts) st = (Some r', None) ->
  Rcode r = Rcode r' ->
  Answer r ≡ₚ Answer r' ->
  fst (RunTest tst target opts st) =
  fst (DNS.RunTest Fqdn IPString NewId Exchange' tst target opts st).
Proof.
  intros Ha Ha' Hc Hp.
  apply (RunTest_same_verdict Exchange' tst target opts st r r');
    try assumption.
  - apply eq_true_iff_eq. rewrite !existsb_exists.
    split; intros (x & Hx & Hx'); exists x; split; try assumption;
      rewrite <- !list_elem_of_In in *; [by rewrite <- Hp | by rewrite Hp].
  - unfold normalize. f_equal. apply Strings_perm. by rewrite Hp.
Qed.

(** X8: [RunTest] reads no argument that [Arguments] does not declare:
    two tests that agree on [type], [lookup] and [result] run alike. *)
Theorem DNS_RunTest_declared_arguments tst tst' target opts st :
  (forall k, k ∈ dom DNSTest.Arguments -> arg tst k = arg tst' k) ->
  dom DNSTest.Arguments = {["type"; "lookup"; "result"]} /\
  RunTest tst target opts st = RunTest tst' target opts st.
Proof.
  intros H.
  assert (dom DNSTest.Arguments = ({["type"; "lookup"; "result"]} : gset string))
    as Hdom.
  { unfold DNSTest.Arguments. simpl list_to_map.
    rewrite !dom_insert_L, dom_empty_L.
    by rewrite (right_id_L ∅ (∪)), (assoc_L (∪)). }
  split; [exact Hdom|].
  unfold DNS.RunTest.
  rewrite (H "lookup"), (H "type"), (H "result")
    by (rewrite Hdom, !elem_of_union, !elem_of_singleton; auto).
  reflexivity.
Qed.

End Probe.
End DNSMore.

(** ** [strconv.Atoi] on strings of digits *)
Module PortFacts.
Import PortSpec.

Lemma isDigit_range (c : ascii) :
  Strconv.isDigit c = true -> 0 <= Z.of_N (N_of_ascii c) - 48 <= 9.
Proof. unfold Strconv.isDigit. lia. Qed.

Lemma isDigit_not_sign (c : ascii) :
  Strconv.isDigit c = true ->
  Ascii.eqb c "+" = false /\ Ascii.eqb c "-" = false.
Proof.
  intros H. split; apply Ascii.eqb_neq; intros ->; vm_compute in H;
    discriminate.
Qed.

Lemma decimal_from_ge (s : string) (n : Z) :
  all_digits s = true -> 0 <= n -> n <= decimal_from s n.
Proof.
  revert n. induction s as [|c s IH]; intros n Hd Hn; simpl; [lia|].
  unfold all_digits in Hd. simpl in Hd. apply andb_true_iff in Hd as [Hc Hd].
  apply isDigit_range in Hc.
  specialize (IH (n * 10 + (Z.of_N (N_of_ascii c) - 48)) Hd). lia.
Qed.

Lemma parseDigits_digits (s : string) (n : Z) :
  all_digits s = true -> 0 <= n <= 2 ^ 64 - 1 ->
  Strconv.parseDigits s n =
    if decimal_from s n <=? 2 ^ 64 - 1 then inl (decimal_from s n)
    else inr ErrRange.
Proof.
  revert n. induction s as [|c s IH]; intros n Hd Hn.
  - simpl. destruct (Z.leb_spec n (2 ^ 64 - 1)); [reflexivity | lia].
  - unfold all_digits in Hd. simpl in Hd.
    apply andb_true_iff in Hd as [Hc Hd].
    cbn [Strconv.parseDigits decimal_from]. rewrite Hc.
    apply isDigit_range in Hc.
    set (n1 := n * 10 + (Z.of_N (N_of_ascii c) - 48)) in *.
    destruct (Z.ltb_spec (2 ^ 64 - 1) n1) as [Ho|Ho].
    + pose proof (decimal_from_ge s n1 Hd ltac:(lia)).
      destruct (Z.leb_spec (decimal_from s n1) (2 ^ 64 - 1)); [lia|].
      reflexivity.
    + apply IH; [assumption | lia].
Qed.

(** On a non-empty string of digits [strconv.Atoi] never reports a
    syntax error: it returns the number the digits denote, or, from
    [2^63] on, a range error. *)
Lemma Atoi_digits (s : string) :
  s <> "" -> all_digits s = true ->
  Strconv.Atoi s =
    if decimal_value s <? 2 ^ 63 then (decimal_value s, None)
    else (2 ^ 63 - 1, Some (NumError "Atoi" s ErrRange)).
Proof.
  intros Hne Hd. destruct s as [|c0 rest]; [congruence|].
  assert (Strconv.isDigit c0 = true) as Hc.
  { unfold all_digits in Hd. simpl in Hd. by apply andb_true_iff in Hd as [? _]. }
  destruct (isDigit_not_sign c0 Hc) as [Hplus Hminus].
  unfold Strconv.Atoi. rewrite Hplus, Hminus. cbn [orb negb andb].
  rewrite parseDigits_digits by (assumption || lia).
  fold (decimal_value (String c0 rest)).
  destruct (Z.leb_spec (decimal_value (String c0 rest)) (2 ^ 64 - 1)) as [Hle|Hgt].
  - destruct (Z.leb_spec (2 ^ 63) (decimal_value (String c0 rest)));
      destruct (Z.ltb_spec (decimal_value (String c0 rest)) (2 ^ 63));
      try lia; reflexivity.
  - destruct (Z.ltb_spec (decimal_value (String c0 rest)) (2 ^ 63));
      [lia | reflexivity].
Qed.

Example decimal_value_examples :
  decimal_value "993" = 993 /\ decimal_value "0993" = 993 /\
  decimal_value "0" = 0 /\
  decimal_value "9223372036854775808" = 2 ^ 63.
Proof. repeat split; reflexivity. Qed.

End PortFacts.

(** ** The IMAPS probe: ports, traces, panics *)
Module IMAPSMore.
Import test IMAPS IMAPSSpec PortSpec.

Section Probe.
Variable DialWithDialerTLS :
  list Event -> Dialer -> string -> TLSConfig -> option error.
Variable Login : list Event -> string -> string -> option error.
Variable Logout : list Event -> option error.

Abbreviation RunTest := (RunTest DialWithDialerTLS Login Logout).

(** X9: a [port] argument made of decimal digits only, as its pattern
    demands, can still be refused: from [2^63] on [RunTest] returns the
    range error of [strconv.Atoi] and attempts no connection.  Below
    that, the connection goes to the port the digits denote (leading
    zeros dropped). *)
Theorem IMAPS_RunTest_digit_port tst target opts log :
  arg tst "port" <> "" -> all_digits (arg tst "port") = true ->
  let n := decimal_value (arg tst "port") in
  if n <? 2 ^ 63 then
    forall name, head (strings_Fields (Input tst)) = Some name ->
    exists tail,
      snd (RunTest tst target opts log) =
        log ++ EvDial {| Dialer_Timeout := Timeout opts |}
                 (hostport target n) (tls_config tst name) :: tail
  else
    RunTest tst target opts log =
      (Done (Some (NumError "Atoi" (arg tst "port") ErrRange)), log).
Proof.
  intros Hne Hd n. rewrite IMAPSFacts.RunTest_run.
  unfold resolved_port. rewrite decide_False by assumption.
  rewrite PortFacts.Atoi_digits by assumption. fold n.
  destruct (n <? 2 ^ 63); [|reflexivity].
  intros name Hname.
  destruct (strings_Fields (Input tst)) as [|name' rest]; [discriminate|].
  injection Hname as ->. cbv zeta. unfold dial_event.
  destruct (DialWithDialerTLS _ _ _ _); simpl; eauto.
Qed.

(** X10: the calls [RunTest] makes on the IMAP client library, in
    order.  Nothing at all; or one dial that failed, whose error is
    returned with no further call; or one dial that succeeded, followed
    by nothing, a login, or a login and a logout, and then by exactly one
    call of [con.Close()], the deferred call, as the last call.  So a
    login never precedes the dial, a logout never comes without a login,
    and [con.Close()] is called exactly once after a successful dial and
    never after a failed one.  (What [con.Close()] does to the
    connection is the library's business and is not stated here.) *)
Theorem IMAPS_RunTest_trace tst target opts log :
  exists evs,
    snd (RunTest tst target opts log) = log ++ evs /\
    (evs = [] \/
     exists dial address cfg,
       let u := arg tst "username" in
       let p := arg tst "password" in
       match DialWithDialerTLS log dial address cfg with
       | Some e =>
           evs = [EvDial dial address cfg] /\
           fst (RunTest tst target opts log) = Done (Some e)
       | None =>
           evs = [EvDial dial address cfg; EvClose] \/
           evs = [EvDial dial address cfg; EvLogin u p; EvClose] \/
           evs = [EvDial dial address cfg; EvLogin u p; EvLogout; EvClose]
       end).
Proof.
  rewrite IMAPSFacts.RunTest_run.
  destruct (resolved_port tst) as [port [e|]].
  { exists []. rewrite app_nil_r. auto. }
  destruct (strings_Fields (Input tst)) as [|name rest].
  { exists []. rewrite app_nil_r. auto. }
  cbv zeta. unfold dial_event.
  destruct (DialWithDialerTLS log _ _ _) as [e|] eqn:Hd.
  - eexists. split; [reflexivity|]. right.
    eexists _, _, _. cbv zeta. rewrite Hd. auto.
  - eexists. split; [reflexivity|]. right.
    eexists _, _, _. cbv zeta. rewrite Hd.
    unfold IMAPSSpec.session. cbv zeta.
    case_decide; [|auto].
    destruct (Login _ _ _); [auto|]. destruct (Logout _); auto.
Qed.

(** X11: [RunTest] panics in one situation only: the port is absent or
    parses, and the input line holds no field.  With any field in
    [Input], whatever the arguments and whatever the server does,
    [RunTest] returns. *)
Theorem IMAPS_RunTest_panics_iff tst target opts log msg :
  fst (RunTest tst target opts log) = Panic msg <->
  msg = "runtime error: index out of range [0] with length 0" /\
  snd (resolved_port tst) = None /\ blank (Input tst).
Proof.
  rewrite IMAPSFacts.RunTest_run, <- Fields_nil_iff.
  destruct (resolved_port tst) as [port [e|]]; cbn [fst snd].
  { split; [discriminate | intros (_ & E & _); discriminate]. }
  destruct (strings_Fields (Input tst)) as [|name rest].
  - split; [intros [= <-]; auto | intros (-> & _); reflexivity].
  - cbv zeta.
    destruct (DialWithDialerTLS _ _ _ _); cbn [fst];
      (split; [discriminate | intros (_ & _ & E); discriminate]).
Qed.

(** X12: [RunTest] reads the input line and no argument that
    [Arguments] does not declare: two tests with the same [Input] that
    agree on [port], [tls], [username] and [password] run alike. *)
Theorem IMAPS_RunTest_declared_arguments tst tst' target opts log :
  Input tst = Input tst' ->
  (forall k, k ∈ dom IMAPSTest.Arguments -> arg tst k = arg tst' k) ->
  dom IMAPSTest.Arguments = {["port"; "tls"; "username"; "password"]} /\
  RunTest tst target opts log = RunTest tst' target opts log.
Proof.
  intros Hi H.
  assert (dom IMAPSTest.Arguments =
          ({["port"; "tls"; "username"; "password"]} : gset string)) as Hdom.
  { unfold IMAPSTest.Arguments. simpl list_to_map.
    rewrite !dom_insert_L, dom_empty_L.
    by rewrite (right_id_L ∅ (∪)), !(assoc_L (∪)). }
  split; [exact Hdom|].
  unfold IMAPS.RunTest.
  rewrite Hi, (H "port"), (H "tls"), (H "username"), (H "password")
    by (rewrite Hdom, !elem_of_union, !elem_of_singleton; auto).
  reflexivity.
Qed.

End Probe.
End IMAPSMore.

(** ** The enqueue sub-command: exit status and files read *)
Module EnqueueMore.
Import test Enqueue EnqueueSpec EnqueueMoreSpec.

Lemma quiet_nil : quiet [].
Proof. intros f e H. by apply elem_of_nil in H. Qed.

Lemma quiet_app (l1 l2 : list Event) : quiet l1 -> quiet l2 -> quiet (l1 ++ l2).
Proof.
  intros H1 H2 f e H. apply elem_of_app in H as [H|H];
    [exact (H1 f e H) | exact (H2 f e H)].
Qed.

Lemma quiet_cons (ev : Event) (l : list Event) :
  (forall f e, ev <> EvPrintf f e) -> quiet l -> quiet (ev :: l).
Proof.
  intros Hev Hl f e H. apply elem_of_cons in H as [H|H];
    [exact (Hev f e (eq_sym H)) | exact (Hl f e H)].
Qed.

Section Cmd.
Variable Ping : list Event -> option error.
Variable RPush : list Event -> string -> string -> option error.
Variable ReadFile : list Event -> string -> list Line + error.

Abbreviation enqueueTest := (enqueueTest RPush).
Abbreviation ParseFile := (ParseFile ReadFile).

(** The parser and the callback print nothing. *)
Lemma parse_lines_quiet lines log :
  exists r evs,
    parse_lines lines enqueueTest log = (Done r, log ++ evs) /\ quiet evs.
Proof.
  revert log. induction lines as [|[tst|e] lines IH]; intros log.
  - exists None, []. rewrite app_nil_r. split; [reflexivity | apply quiet_nil].
  - cbn [parse_lines]. monad_unfold. rewrite EnqueueFacts.enqueueTest_run.
    destruct (RPush log "overseer.jobs" (Input tst)) as [e|].
    + exists (Some e), [EvRPush "overseer.jobs" (Input tst)].
      split; [reflexivity|]. apply quiet_cons; [discriminate | apply quiet_nil].
    + destruct (IH (log ++ [EvRPush "overseer.jobs" (Input tst)]))
        as (r & evs & -> & Hq).
      exists r, (EvRPush "overseer.jobs" (Input tst) :: evs).
      split; [by rewrite <- app_assoc|].
      apply quiet_cons; [discriminate | assumption].
  - exists (Some e), []. rewrite app_nil_r.
    split; [reflexivity | apply quiet_nil].
Qed.

Lemma ParseFile_quiet file log :
  exists r evs,
    ParseFile file enqueueTest log = (Done r, log ++ evs) /\
    quiet evs /\ parsed evs = [file].
Proof.
  unfold Enqueue.ParseFile, read_file. monad_unfold.
  destruct (ReadFile log file) as [lines|e].
  - destruct (parse_lines_quiet lines (log ++ [EvParseFile file]))
      as (r & evs & E & Hq).
    destruct (EnqueueFacts.parse_lines_log RPush lines (log ++ [EvParseFile file]))
      as (r' & evs' & E' & Hp).
    rewrite E in E'. injection E' as <- E'. apply app_inv_head in E'. subst evs'.
    rewrite E. exists r, (EvParseFile file :: evs).
    split; [by rewrite <- app_assoc|]. split.
    + apply quiet_cons; [discriminate | assumption].
    + simpl. by rewrite Hp.
  - exists (Some e), [EvParseFile file]. split; [reflexivity|]. split.
    + apply quiet_cons; [discriminate | apply quiet_nil].
    + reflexivity.
Qed.

(** The loop of the later revision: what it returns, what it printed,
    which files it handed to the parser. *)
Lemma V2_files_shape args log :
  exists r evs,
    V2.files RPush ReadFile args log = (Done r, log ++ evs) /\
    parsed evs `prefix_of` args /\
    match r with
    | None => quiet evs /\ ("-" ∉ args -> parsed evs = args)
    | Some status =>
        status = ExitFailure /\
        exists evs' e,
          evs = evs' ++ [EvPrintf ("Error parsing file: %s" +:+ newline) e] /\
          quiet evs'
    end.
Proof.
  revert log. induction args as [|file rest IH]; intros log.
  - exists None, []. rewrite app_nil_r. split; [reflexivity|].
    split; [done|]. split; [apply quiet_nil | done].
  - rewrite EnqueueFacts.V2_files_cons.
    destruct (ParseFile_quiet file log) as (r & evs & -> & Hq & Hp).
    destruct r as [e|].
    + exists (Some ExitFailure),
        (evs ++ [EvPrintf ("Error parsing file: %s" +:+ newline) e]).
      split; [by rewrite <- app_assoc|]. split.
      * rewrite EnqueueFacts.parsed_app, Hp. simpl.
        by apply prefix_cons, prefix_nil.
      * split; [reflexivity|]. eauto.
    + case_decide as Hstd.
      * exists None, evs. split; [reflexivity|]. split.
        -- rewrite Hp. by apply prefix_cons, prefix_nil.
        -- split; [assumption|]. intros Hn. exfalso. apply Hn.
           subst. apply list_elem_of_here.
      * destruct (IH (log ++ evs)) as (r & evs2 & -> & Hpre & Hr).
        exists r, (evs ++ evs2). split; [by rewrite <- app_assoc|]. split.
        -- rewrite EnqueueFacts.parsed_app, Hp. by apply prefix_cons.
        -- destruct r as [status|].
           ++ destruct Hr as (-> & evs' & e & -> & Hq').
              split; [reflexivity|]. exists (evs ++ evs'), e.
              split; [by rewrite <- app_assoc|]. by apply quiet_app.
           ++ destruct Hr as [Hq' Hall]. split; [by apply quiet_app|].
              intros Hn. apply not_elem_of_cons in Hn as [_ Hn].
              rewrite EnqueueFacts.parsed_app, Hp, (Hall Hn). reflexivity.
Qed.


(** X14: the later revision reads files in argument order and never
    goes back or skips ahead: the files handed to the parser are an
    initial stretch of the arguments; and when the command exits with
    the success status and ["-"] is not among the arguments, that
    stretch is all of them. *)
Theorem V2_Execute_files p args log :
  exists l,
    parsed (snd (V2.Execute Ping RPush ReadFile p args log)) =
      parsed log ++ l /\
    l `prefix_of` args /\
    (fst (V2.Execute Ping RPush ReadFile p args log) = Done ExitSuccess ->
     "-" ∉ args -> l = args).
Proof.
  rewrite EnqueueFacts.V2_Execute_run. cbv zeta.
  destruct (Ping _) as [e|].
  - exists []. cbn [fst snd]. split.
    + rewrite !EnqueueFacts.parsed_app. simpl. by rewrite !app_nil_r.
    + split; [apply prefix_nil | discriminate].
  - destruct (V2_files_shape args (log ++ [EvNewClient (V2_options p); EvPing]))
      as (r & evs & -> & Hpre & Hr).
    exists (parsed evs).
    assert (parsed ((log ++ [EvNewClient (V2_options p); EvPing]) ++ evs)
            = parsed log ++ parsed evs) as Hparsed.
    { rewrite !EnqueueFacts.parsed_app. simpl. by rewrite app_nil_r. }
    destruct r as [status|]; cbn [fst snd].
    + destruct Hr as (-> & _). split; [apply Hparsed|].
      split; [assumption | discriminate].
    + destruct Hr as [_ Hall]. split; [apply Hparsed|].
      split; [assumption | intros _; exact Hall].
Qed.

End Cmd.
End EnqueueMore.

(** ** The flags of the enqueue sub-command *)
Module FlagsMore.
Import Flags FlagsSpec.

Section Env.
Variable Getenv : string -> string.
Variable ReadFile : string -> string * option error.

(** Loading the defaults never fails: it reads at most the one file named
    by [$OVERSEER], prints at most one warning, and leaves the built-in
    defaults alone when the variable is unset or the file unreadable. *)
Lemma load_defaults_run {C} (Unmarshal : string -> C -> C * option error)
    (builtin : C) (st : State C) :
  exists d evs,
    load_defaults Getenv ReadFile Unmarshal builtin st =
      (Done d, {| cmd := cmd st; fs_name := fs_name st;
                  formal := formal st; log := log st ++ evs |}) /\
    (evs = [] \/
     Getenv "OVERSEER" <> "" /\
     (evs = [EvReadFile (Getenv "OVERSEER")] \/
      exists format e,
        evs = [EvReadFile (Getenv "OVERSEER"); EvPrintf format e])) /\
    (Getenv "OVERSEER" = "" -> evs = [] /\ d = builtin) /\
    (forall cfg e, ReadFile (Getenv "OVERSEER") = (cfg, Some e) ->
                   d = builtin) /\
    (forall cfg, Getenv "OVERSEER" <> "" ->
                 ReadFile (Getenv "OVERSEER") = (cfg, None) ->
                 d = fst (Unmarshal cfg builtin)).
Proof.
  unfold load_defaults.
  destruct (Getenv "OVERSEER") as [|c path] eqn:Henv.
  - cbn. exists builtin, []. rewrite app_nil_r. destruct st.
    repeat split; auto; intros; congruence.
  - assert ((0 <? Z.of_nat (String.length (String c path))) = true) as ->
      by (apply Z.ltb_lt; simpl; lia).
    unfold ioutil_ReadFile, Printf. monad_unfold.
    destruct (ReadFile (String c path)) as [cfg [e|]] eqn:Hr.
    + eexists builtin, _. split; [cbn; by rewrite <- app_assoc|].
      repeat split; try (intros; congruence).
      right. split; [discriminate|]. right. eauto.
    + destruct (Unmarshal cfg builtin) as [d [e|]] eqn:Hu.
      * eexists d, _. split; [cbn; by rewrite <- app_assoc|].
        repeat split; try (intros; congruence).
        -- right. split; [discriminate|]. right. eauto.
        -- intros cfg' _ [= <-]. by rewrite Hu.
      * eexists d, _. split; [cbn; reflexivity|].
        repeat split; try (intros; congruence).
        -- right. split; [discriminate|]. by left.
        -- intros cfg' _ [= <-]. by rewrite Hu.
Qed.

Lemma Var_fresh {C} (set : C -> C) name value usage (st : State C) :
  formal st !! name = None ->
  Var set name value usage st =
    (Done tt,
     {| cmd := set (cmd st); fs_name := fs_name st;
        formal := <[name := {| Name := name; Usage := usage;
                               DefValue := value |}]> (formal st);
        log := log st |}).
Proof. intros H. unfold Var. by rewrite H. Qed.

Lemma Var_defined {C} (set : C -> C) name value usage (st : State C) :
  formal st !! name <> None ->
  exists msg, fst (Var set name value usage st) = Panic msg.
Proof.
  intros H. unfold Var. destruct (formal st !! name); [|congruence]. eauto.
Qed.


(** X15: [SetFlags] of the later revision on a flag set that defines
    none of its five names.  It returns without failing whatever the
    configuration file holds: it defines exactly the flags [redis-db],
    [redis-host], [redis-pass], [redis-socket] and [redis-timeout], each
    with the loaded default as its default value, and leaves every other
    flag as it was; the command's fields all take the loaded defaults,
    whatever they held before.  It reads at most the file named by
    [$OVERSEER] and prints at most one warning; with the variable unset it
    touches nothing and the defaults are the built-in ones
    (localhost:6379, no password, database 0, no socket, five seconds),
    as they are when the file cannot be read. *)
Theorem V2_SetFlags_fresh
    (Unmarshal : string -> Enqueue.V2.enqueueCmd ->
                 Enqueue.V2.enqueueCmd * option error)
    (st : State Enqueue.V2.enqueueCmd) :
  Forall (fun n => formal st !! n = None) V2_names ->
  exists d evs formal',
    V2.SetFlags Getenv ReadFile Unmarshal st =
      (Done tt, {| cmd := d; fs_name := fs_name st; formal := formal';
                   log := log st ++ evs |}) /\
    default_of formal' "redis-db" = Some (IntValue (Enqueue.V2.RedisDB d)) /\
    default_of formal' "redis-host"
      = Some (StringValue (Enqueue.V2.RedisHost d)) /\
    default_of formal' "redis-pass"
      = Some (StringValue (Enqueue.V2.RedisPassword d)) /\
    default_of formal' "redis-socket"
      = Some (StringValue (Enqueue.V2.RedisSocket d)) /\
    default_of formal' "redis-timeout"
      = Some (DurationValue (Enqueue.V2.RedisDialTimeout d)) /\
    (forall n, n ∉ V2_names -> formal' !! n = formal st !! n) /\
    (evs = [] \/
     Getenv "OVERSEER" <> "" /\
     (evs = [EvReadFile (Getenv "OVERSEER")] \/
      exists format e,
        evs = [EvReadFile (Getenv "OVERSEER"); EvPrintf format e])) /\
    (Getenv "OVERSEER" = "" -> evs = [] /\ d = V2_builtin) /\
    (forall cfg e, ReadFile (Getenv "OVERSEER") = (cfg, Some e) ->
                   d = V2_builtin) /\
    (forall cfg, Getenv "OVERSEER" <> "" ->
                 ReadFile (Getenv "OVERSEER") = (cfg, None) ->
                 d = fst (Unmarshal cfg V2_builtin)).
Proof.
  intros Hfresh. unfold V2_names in Hfresh.
  rewrite !Forall_cons in Hfresh.
  destruct Hfresh as (H1 & H2 & H3 & H4 & H5 & _).
  unfold V2.SetFlags. monad_unfold.
  change (5 * second) with 5000000000. fold V2_builtin.
  destruct (load_defaults_run Unmarshal V2_builtin st)
    as (d & evs & -> & Hev & Hunset & Hunread & Hread).
  rewrite Var_fresh by exact H1. cbn [cmd fs_name formal log].
  rewrite Var_fresh by (cbn [formal]; by rewrite !lookup_insert_ne).
  cbn [cmd fs_name formal log].
  rewrite Var_fresh by (cbn [formal]; by rewrite !lookup_insert_ne).
  cbn [cmd fs_name formal log].
  rewrite Var_fresh by (cbn [formal]; by rewrite !lookup_insert_ne).
  cbn [cmd fs_name formal log].
  rewrite Var_fresh by (cbn [formal]; by rewrite !lookup_insert_ne).
  cbn [cmd fs_name formal log Enqueue.V2.RedisDB Enqueue.V2.RedisHost
       Enqueue.V2.RedisPassword Enqueue.V2.RedisSocket
       Enqueue.V2.RedisDialTimeout].
  exists d, evs. eexists. split.
  { destruct d. reflexivity. }
  unfold default_of.
  repeat (split; [by rewrite ?lookup_insert_ne, ?lookup_insert_eq by done|]).
  split; [|auto].
  intros n Hn. unfold V2_names in Hn.
  rewrite !not_elem_of_cons in Hn. destruct Hn as (? & ? & ? & ? & ? & _).
  by rewrite !lookup_insert_ne.
Qed.


(** X16: [SetFlags] of the earlier revision on a flag set that defines
    neither [redis-host] nor [redis-pass]: it returns without failing
    whatever the configuration file holds, defines exactly these two
    flags with the loaded defaults, sets both fields of the command to
    them, reads at most the file named by [$OVERSEER] and prints at most
    one warning; with the variable unset, or the file unreadable, the
    defaults are localhost:6379 and no password. *)
Theorem V1_SetFlags_fresh
    (Unmarshal : string -> Enqueue.V1.enqueueCmd ->
                 Enqueue.V1.enqueueCmd * option error)
    (st : State Enqueue.V1.enqueueCmd) :
  Forall (fun n => formal st !! n = None) V1_names ->
  exists d evs formal',
    V1.SetFlags Getenv ReadFile Unmarshal st =
      (Done tt, {| cmd := d; fs_name := fs_name st; formal := formal';
                   log := log st ++ evs |}) /\
    default_of formal' "redis-host"
      = Some (StringValue (Enqueue.V1.RedisHost d)) /\
    default_of formal' "redis-pass"
      = Some (StringValue (Enqueue.V1.RedisPassword d)) /\
    (forall n, n ∉ V1_names -> formal' !! n = formal st !! n) /\
    (evs = [] \/
     Getenv "OVERSEER" <> "" /\
     (evs = [EvReadFile (Getenv "OVERSEER")] \/
      exists format e,
        evs = [EvReadFile (Getenv "OVERSEER"); EvPrintf format e])) /\
    (Getenv "OVERSEER" = "" -> evs = [] /\ d = V1_builtin) /\
    (forall cfg e, ReadFile (Getenv "OVERSEER") = (cfg, Some e) ->
                   d = V1_builtin) /\
    (forall cfg, Getenv "OVERSEER" <> "" ->
                 ReadFile (Getenv "OVERSEER") = (cfg, None) ->
                 d = fst (Unmarshal cfg V1_builtin)).
Proof.
  intros Hfresh. unfold V1_names in Hfresh.
  rewrite !Forall_cons in Hfresh. destruct Hfresh as (H1 & H2 & _).
  unfold V1.SetFlags. monad_unfold. fold V1_builtin.
  destruct (load_defaults_run Unmarshal V1_builtin st)
    as (d & evs & -> & Hev & Hunset & Hunread & Hread).
  rewrite Var_fresh by exact H1. cbn [cmd fs_name formal log].
  rewrite Var_fresh by (cbn [formal]; by rewrite !lookup_insert_ne).
  cbn [cmd fs_name formal log Enqueue.V1.RedisHost Enqueue.V1.RedisPassword].
  exists d, evs. eexists. split.
  { destruct d. reflexivity. }
  unfold default_of.
  repeat (split; [by rewrite ?lookup_insert_ne, ?lookup_insert_eq by done|]).
  split; [|auto].
  intros n Hn. unfold V1_names in Hn.
  rewrite !not_elem_of_cons in Hn. destruct Hn as (? & ? & _).
  by rewrite !lookup_insert_ne.
Qed.

End Env.
End FlagsMore.

(** ** The further properties at work on the sample world *)

Lemma X2_witness :
  fst (DNS.RunTest Sample.Fqdn Sample.IPString Sample.NewId
         (Sample.Exchange DNS.RcodeSuccess [DNS.NS "ns1."; DNS.TXT []])
         (Sample.dns_test "example.com" "TXT" "")
         "192.0.2.53" Sample.opts Sample.st0)
  = Panic "runtime error: index out of range [0] with length 0".
Proof.
  apply (proj2 (DNSMore.DNS_RunTest_panics_iff Sample.Fqdn Sample.IPString
                  Sample.NewId
                  (Sample.Exchange DNS.RcodeSuccess [DNS.NS "ns1."; DNS.TXT []])
                  (Sample.dns_test "example.com" "TXT" "")
                  "192.0.2.53" Sample.opts Sample.st0 _)).
  split; [reflexivity|]. split; [vm_compute; discriminate|].
  split; [apply (bool_decide_unpack _); vm_compute; exact I|].
  eexists. split; [vm_compute; reflexivity|]. split; reflexivity.
Defined.

Lemma X3_witness :
  fst (DNS.RunTest Sample.Fqdn Sample.IPString Sample.NewId
         (fun _ _ _ _ => (None, Some (externalError "i/o timeout")))
         (Sample.dns_test "example.com" "A" "192.0.2.7")
         "192.0.2.53" Sample.opts Sample.st0)
  = Done (Some (externalError "i/o timeout")).
Proof.
  rewrite (DNSMore.RunTest_transport_error Sample.Fqdn Sample.IPString
             Sample.NewId
             (fun _ _ _ _ => (None, Some (externalError "i/o timeout")))
             (Sample.dns_test "example.com" "A" "192.0.2.7")
             "192.0.2.53" Sample.opts Sample.st0 None
             (externalError "i/o timeout")).
  - reflexivity.
  - vm_compute. discriminate.
  - apply (bool_decide_unpack _). vm_compute. exact I.
  - reflexivity.
Defined.

Lemma X4_witness :
  fst (DNS.RunTest Sample.Fqdn Sample.IPString Sample.NewId
         (Sample.Exchange DNS.RcodeSuccess
            [DNS.MX 20 "mx2.example.com."; DNS.MX 10 "mx1.example.com."])
         (Sample.dns_test "example.com" "MX"
            "10 mx1.example.com.,20 mx2.example.com.")
         "192.0.2.53" Sample.opts Sample.st0)
  = Done None.
Proof.
  apply (proj2 (DNSMore.RunTest_passes_iff Sample.Fqdn Sample.IPString
                  Sample.NewId
                  (Sample.Exchange DNS.RcodeSuccess
                     [DNS.MX 20 "mx2.example.com.";
                      DNS.MX 10 "mx1.example.com."])
                  (Sample.dns_test "example.com" "MX"
                     "10 mx1.example.com.,20 mx2.example.com.")
                  "192.0.2.53" Sample.opts Sample.st0)).
  split; [vm_compute; discriminate|].
  split; [apply (bool_decide_unpack _); vm_compute; exact I|].
  left. eexists. split; [vm_compute; reflexivity|].
  split; [reflexivity|]. split; [reflexivity|]. vm_compute. reflexivity.
Defined.

Lemma X5_witness :
  exists m,
    DNS.log (snd (DNS.RunTest Sample.Fqdn Sample.IPString Sample.NewId
                    (Sample.Exchange DNS.RcodeSuccess [])
                    (Sample.dns_test "example.com" "AAAA" "")
                    "192.0.2.53" Sample.opts Sample.st0)) =
      [] ++ [DNS.EvExchange {| DNS.ReadTimeout := 5000000000 |} m
               (hostport "192.0.2.53" 53)] /\
    DNS.Id m = 4242 /\
    DNS.RecursionDesired m = true /\
    DNS.Question_ m = [ {| DNS.Name := "example.com."; DNS.Qtype := 28;
                           DNS.Qclass := 1 |} ] /\
    28 ∈ [1; 2; 15; 16; 28].
Proof.
  apply (DNSMore.RunTest_query Sample.Fqdn Sample.IPString Sample.NewId
           (Sample.Exchange DNS.RcodeSuccess [])
           (Sample.dns_test "example.com" "AAAA" "")
           "192.0.2.53" Sample.opts Sample.st0).
  - vm_compute. discriminate.
  - apply (bool_decide_unpack _). vm_compute. exact I.
Defined.

Lemma X6_witness :
  fst (DNS.RunTest Sample.Fqdn Sample.IPString Sample.NewId
         (Sample.Exchange DNS.RcodeSuccess [DNS.TXT ["a"]; DNS.TXT ["b"]])
         (Sample.dns_test "example.com" "TXT" "a,b")
         "192.0.2.53" Sample.opts Sample.st0) =
  fst (DNS.RunTest Sample.Fqdn Sample.IPString Sample.NewId
         (Sample.Exchange DNS.RcodeSuccess [DNS.TXT ["a" +:+ "," +:+ "b"]])
         (Sample.dns_test "example.com" "TXT" "a,b")
         "192.0.2.53" Sample.opts Sample.st0).
Proof.
  eapply (DNSMore.RunTest_comma_ambiguity Sample.Fqdn Sample.IPString
            Sample.NewId
            (Sample.Exchange DNS.RcodeSuccess [DNS.TXT ["a"]; DNS.TXT ["b"]])
            (Sample.Exchange DNS.RcodeSuccess [DNS.TXT ["a" +:+ "," +:+ "b"]])
            (Sample.dns_test "example.com" "TXT" "a,b")
            "192.0.2.53" Sample.opts Sample.st0 _ _ "a" "b").
  - vm_compute. reflexivity.
  - vm_compute. reflexivity.
  - reflexivity.
  - apply (bool_decide_unpack _). vm_compute. exact I.
  - reflexivity.
  - reflexivity.
Defined.

Lemma X7_witness :
  fst (DNS.RunTest Sample.Fqdn Sample.IPString Sample.NewId
         (Sample.Exchange DNS.RcodeSuccess
            [DNS.A "192.0.2.8"; DNS.A "192.0.2.7"])
         (Sample.dns_test "example.com" "A" "192.0.2.7,192.0.2.8")
         "192.0.2.53" Sample.opts Sample.st0) =
  fst (DNS.RunTest Sample.Fqdn Sample.IPString Sample.NewId
         (Sample.Exchange DNS.RcodeSuccess
            [DNS.A "192.0.2.7"; DNS.A "192.0.2.8"])
         (Sample.dns_test "example.com" "A" "192.0.2.7,192.0.2.8")
         "192.0.2.53" Sample.opts Sample.st0).
Proof.
  eapply (DNSMore.RunTest_answer_order Sample.Fqdn Sample.IPString
            Sample.NewId
            (Sample.Exchange DNS.RcodeSuccess
               [DNS.A "192.0.2.8"; DNS.A "192.0.2.7"])
            (Sample.Exchange DNS.RcodeSuccess
               [DNS.A "192.0.2.7"; DNS.A "192.0.2.8"])
            (Sample.dns_test "example.com" "A" "192.0.2.7,192.0.2.8")
            "192.0.2.53" Sample.opts Sample.st0).
  - vm_compute. reflexivity.
  - vm_compute. reflexivity.
  - reflexivity.
  - apply Permutation_swap.
Defined.

(** An argument the probe does not declare changes nothing. *)
Lemma X8_witness :
  DNS.RunTest Sample.Fqdn Sample.IPString Sample.NewId
    (Sample.Exchange DNS.RcodeSuccess [DNS.A "192.0.2.7"])
    {| test.Input := "ns.example.com must run dns";
       test.Arguments := list_to_map
         [("lookup", "example.com"); ("type", "A");
          ("result", "192.0.2.7"); ("retries", "3")] |}
    "192.0.2.53" Sample.opts Sample.st0 =
  DNS.RunTest Sample.Fqdn Sample.IPString Sample.NewId
    (Sample.Exchange DNS.RcodeSuccess [DNS.A "192.0.2.7"])
    (Sample.dns_test "example.com" "A" "192.0.2.7")
    "192.0.2.53" Sample.opts Sample.st0.
Proof.
  apply (DNSMore.DNS_RunTest_declared_arguments Sample.Fqdn Sample.IPString
           Sample.NewId
           (Sample.Exchange DNS.RcodeSuccess [DNS.A "192.0.2.7"])).
  intros k Hk. unfold DNSTest.Arguments in Hk. simpl list_to_map in Hk.
  rewrite !dom_insert_L, dom_empty_L, !elem_of_union, !elem_of_singleton,
    elem_of_empty in Hk.
  destruct Hk as [->|[->|[->|[]]]]; reflexivity.
Defined.

(** Port 0993 is port 993; a port of twenty digits is refused. *)
Lemma X9_witness :
  (exists tail,
     snd (IMAPS.RunTest Sample.Dial (Sample.Login "u" "p") Sample.Logout
            (Sample.imaps_test "mail.example.com must run imaps"
               [("port", "0993")])
            "192.0.2.25" Sample.opts []) =
       [] ++ IMAPS.EvDial {| IMAPS.Dialer_Timeout := 5000000000 |}
               (hostport "192.0.2.25" 993)
               {| IMAPS.ServerName := "mail.example.com";
                  IMAPS.InsecureSkipVerify := false |} :: tail) /\
  IMAPS.RunTest Sample.Dial (Sample.Login "u" "p") Sample.Logout
    (Sample.imaps_test "mail.example.com must run imaps"
       [("port", "99999999999999999999")])
    "192.0.2.25" Sample.opts [] =
  (Done (Some (NumError "Atoi" "99999999999999999999" ErrRange)), []).
Proof.
  split.
  - refine (IMAPSMore.IMAPS_RunTest_digit_port Sample.Dial
              (Sample.Login "u" "p") Sample.Logout
              (Sample.imaps_test "mail.example.com must run imaps"
                 [("port", "0993")])
              "192.0.2.25" Sample.opts [] _ _ "mail.example.com" _).
    + vm_compute. discriminate.
    + vm_compute. reflexivity.
    + vm_compute. reflexivity.
  - refine (IMAPSMore.IMAPS_RunTest_digit_port Sample.Dial
              (Sample.Login "u" "p") Sample.Logout
              (Sample.imaps_test "mail.example.com must run imaps"
                 [("port", "99999999999999999999")])
              "192.0.2.25" Sample.opts [] _ _).
    + vm_compute. discriminate.
    + vm_compute. reflexivity.
Defined.

(** With a field in the input line there is no panic. *)
Lemma X11_witness :
  fst (IMAPS.RunTest Sample.Dial (Sample.Login "u" "p") Sample.Logout
         (Sample.imaps_test "mail.example.com must run imaps" [])
         "192.0.2.25" Sample.opts [])
  <> Panic "runtime error: index out of range [0] with length 0".
Proof.
  intros H.
  apply (IMAPSMore.IMAPS_RunTest_panics_iff Sample.Dial
           (Sample.Login "u" "p") Sample.Logout) in H.
  destruct H as (_ & _ & Hb). apply Fields_nil_iff in Hb.
  vm_compute in Hb. discriminate.
Defined.

Lemma X12_witness :
  IMAPS.RunTest Sample.Dial (Sample.Login "u" "p") Sample.Logout
    (Sample.imaps_test "mail.example.com must run imaps"
       [("username", "u"); ("password", "p"); ("retries", "3")])
    "192.0.2.25" Sample.opts [] =
  IMAPS.RunTest Sample.Dial (Sample.Login "u" "p") Sample.Logout
    (Sample.imaps_test "mail.example.com must run imaps"
       [("username", "u"); ("password", "p")])
    "192.0.2.25" Sample.opts [].
Proof.
  apply (IMAPSMore.IMAPS_RunTest_declared_arguments Sample.Dial
           (Sample.Login "u" "p") Sample.Logout).
  - reflexivity.
  - intros k Hk. unfold IMAPSTest.Arguments in Hk. simpl list_to_map in Hk.
    rewrite !dom_insert_L, dom_empty_L, !elem_of_union, !elem_of_singleton,
      elem_of_empty in Hk.
    destruct Hk as [->|[->|[->|[->|[]]]]]; reflexivity.
Defined.

(** A successful run without standard input has read every file. *)
Lemma X14_witness :
  EnqueueSpec.parsed
    (snd (Enqueue.V2.Execute Sample.Ping Sample.RPush Sample.ReadFile
            Sample.cmd2 ["good.conf"; "good.conf"] []))
  = ["good.conf"; "good.conf"].
Proof.
  destruct (EnqueueMore.V2_Execute_files Sample.Ping Sample.RPush
              Sample.ReadFile Sample.cmd2 ["good.conf"; "good.conf"] [])
    as (l & Hl & _ & Hall).
  rewrite Hl. rewrite Hall; [reflexivity | vm_compute; reflexivity |].
  apply (bool_decide_unpack _). vm_compute. exact I.
Defined.

(** The host of the configuration file becomes the default of the flag
    and the value of the field. *)
Lemma X15_witness :
  exists d evs formal',
    Flags.V2.SetFlags SampleFlags.Getenv SampleFlags.ReadFile
      SampleFlags.Unmarshal2 SampleFlags.st2 =
      (Done tt, {| Flags.cmd := d; Flags.fs_name := "enqueue";
                   Flags.formal := formal'; Flags.log := [] ++ evs |}) /\
    FlagsSpec.default_of formal' "redis-host"
      = Some (Flags.StringValue (Enqueue.V2.RedisHost d)) /\
    d = fst (SampleFlags.Unmarshal2 "{...}" FlagsSpec.V2_builtin).
Proof.
  destruct (FlagsMore.V2_SetFlags_fresh SampleFlags.Getenv
              SampleFlags.ReadFile SampleFlags.Unmarshal2 SampleFlags.st2)
    as (d & evs & formal' & E & _ & Hh & _ & _ & _ & _ & _ & _ & _ & Hread).
  - repeat constructor.
  - exists d, evs, formal'. split; [exact E|]. split; [exact Hh|].
    apply Hread; [vm_compute; discriminate | reflexivity].
Defined.

Lemma X16_witness :
  exists d evs formal',
    Flags.V1.SetFlags SampleFlags.Getenv SampleFlags.ReadFile
      SampleFlags.Unmarshal1 SampleFlags.st1 =
      (Done tt, {| Flags.cmd := d; Flags.fs_name := "enqueue";
                   Flags.formal := formal'; Flags.log := [] ++ evs |}) /\
    FlagsSpec.default_of formal' "redis-host"
      = Some (Flags.StringValue (Enqueue.V1.RedisHost d)) /\
    d = fst (SampleFlags.Unmarshal1 "{...}" FlagsSpec.V1_builtin).
Proof.
  destruct (FlagsMore.V1_SetFlags_fresh SampleFlags.Getenv
              SampleFlags.ReadFile SampleFlags.Unmarshal1 SampleFlags.st1)
    as (d & evs & formal' & E & Hh & _ & _ & _ & _ & _ & Hread).
  - repeat constructor.
  - exists d, evs, formal'. split; [exact E|]. split; [exact Hh|].
    apply Hread; [vm_compute; discriminate | reflexivity].
Defined.
